(** * DevAgent: the dependency-aware task coordinator of [dummy.py]

    A shallow embedding of the [DevAgent] class: the Python object store for
    [Task] objects, the coordinator's dictionaries, sets and queue, the
    notification sink as a log of broadcast messages, and the asyncio event
    loop as the list of coroutines created by [asyncio.create_task] together
    with the coroutines suspended inside [await self.execute_task(...)]. *)

From Stdlib Require Import ZArith String Ascii List Bool Lia.
From stdpp Require Import base gmap sets list strings pretty.

Local Open Scope string_scope.

#[local] Set Warnings "-clear-no-such-hyp".

(** ** Tasks and the object store *)

Inductive TaskStatus := PENDING | IN_PROGRESS | COMPLETED | FAILED | SKIPPED.

#[global] Instance TaskStatus_eq_dec : EqDecision TaskStatus.
Proof. solve_decision. Defined.

(** The attributes of [models.task.Task], as the constructor call in
    [_enhance_task_with_context] lists them.  [estimated_hours] and
    [complexity] are opaque metadata and are kept as text. *)
Record Task := mkTask {
  id : string;
  title : string;
  description : string;
  priority : Z;
  status : TaskStatus;
  dependencies : list string;
  estimated_hours : string;
  complexity : string;
  agent_type : string
}.

#[global] Instance Task_eq_dec : EqDecision Task.
Proof. solve_decision. Defined.

#[global] Instance Task_inhabited : Inhabited Task :=
  populate (mkTask "" "" "" 0 PENDING [] "" "" "").

Definition with_status (st : TaskStatus) (t : Task) : Task :=
  mkTask (id t) (title t) (description t) (priority t) st (dependencies t)
         (estimated_hours t) (complexity t) (agent_type t).

Definition with_priority (p : Z) (t : Task) : Task :=
  mkTask (id t) (title t) (description t) p (status t) (dependencies t)
         (estimated_hours t) (complexity t) (agent_type t).

(** A Python reference to a [Task] object: an index into the object store. *)
Definition ref := nat.

(** ** The notification sink *)

(** One broadcast message: its ["type"] tag, the ["task_id"] and ["status"]
    entries when the dictionary has them, and the remaining payload
    (outstanding ids, error text, streamed chunk, ...).  Timestamps and the
    constant ["agent_id"] are left out. *)
Record Message := mkMessage {
  msg_type : string;
  msg_task_id : option string;
  msg_status : option TaskStatus;
  msg_payload : list string
}.

#[global] Instance Message_eq_dec : EqDecision Message.
Proof. solve_decision. Defined.

(** ** The plan context dictionary ([{}] is [None]) *)

Record PlanContext := mkPlanContext {
  plan_id : string;
  plan_title : string;
  plan_description : string
}.

(** ** The agent *)

Record DevAgent := mkDevAgent {
  heap : list Task;
  websocket_manager : list Message;
  plan_context : option PlanContext;
  pending_tasks : gmap string ref;
  completed_tasks : gset string;
  in_progress_tasks : gset string;
  task_queue : list ref;
  dependency_graph : gmap string (list string);
  waiting_for_dependencies : list (string * gset string);
  is_plan_complete : bool;
  is_processing_active : bool;
  max_concurrent_tasks : nat;
  (** coroutines handed to [asyncio.create_task] that have not started yet *)
  loop_created : list ref;
  (** coroutines suspended in [await self.execute_task(enhanced_task)]:
      the task and its enhanced task *)
  loop_suspended : list (ref * ref)
}.

(** [DevAgent.__init__] *)
Definition init : DevAgent :=
  mkDevAgent [] [] None ∅ ∅ ∅ [] ∅ [] false false 2 [] [].

Section Setters.
Variable s : DevAgent.

Definition set_heap (h : list Task) : DevAgent :=
    mkDevAgent h (websocket_manager s) (plan_context s) (pending_tasks s)
      (completed_tasks s) (in_progress_tasks s) (task_queue s)
      (dependency_graph s) (waiting_for_dependencies s) (is_plan_complete s)
      (is_processing_active s) (max_concurrent_tasks s) (loop_created s)
      (loop_suspended s).

Definition set_websocket_manager (w : list Message) : DevAgent :=
    mkDevAgent (heap s) w (plan_context s) (pending_tasks s)
      (completed_tasks s) (in_progress_tasks s) (task_queue s)
      (dependency_graph s) (waiting_for_dependencies s) (is_plan_complete s)
      (is_processing_active s) (max_concurrent_tasks s) (loop_created s)
      (loop_suspended s).

Definition set_plan_context (c : option PlanContext) : DevAgent :=
    mkDevAgent (heap s) (websocket_manager s) c (pending_tasks s)
      (completed_tasks s) (in_progress_tasks s) (task_queue s)
      (dependency_graph s) (waiting_for_dependencies s) (is_plan_complete s)
      (is_processing_active s) (max_concurrent_tasks s) (loop_created s)
      (loop_suspended s).

Definition set_pending_tasks (p : gmap string ref) : DevAgent :=
    mkDevAgent (heap s) (websocket_manager s) (plan_context s) p
      (completed_tasks s) (in_progress_tasks s) (task_queue s)
      (dependency_graph s) (waiting_for_dependencies s) (is_plan_complete s)
      (is_processing_active s) (max_concurrent_tasks s) (loop_created s)
      (loop_suspended s).

Definition set_completed_tasks (c : gset string) : DevAgent :=
    mkDevAgent (heap s) (websocket_manager s) (plan_context s)
      (pending_tasks s) c (in_progress_tasks s) (task_queue s)
      (dependency_graph s) (waiting_for_dependencies s) (is_plan_complete s)
      (is_processing_active s) (max_concurrent_tasks s) (loop_created s)
      (loop_suspended s).

Definition set_in_progress_tasks (p : gset string) : DevAgent :=
    mkDevAgent (heap s) (websocket_manager s) (plan_context s)
      (pending_tasks s) (completed_tasks s) p (task_queue s)
      (dependency_graph s) (waiting_for_dependencies s) (is_plan_complete s)
      (is_processing_active s) (max_concurrent_tasks s) (loop_created s)
      (loop_suspended s).

Definition set_task_queue (q : list ref) : DevAgent :=
    mkDevAgent (heap s) (websocket_manager s) (plan_context s)
      (pending_tasks s) (completed_tasks s) (in_progress_tasks s) q
      (dependency_graph s) (waiting_for_dependencies s) (is_plan_complete s)
      (is_processing_active s) (max_concurrent_tasks s) (loop_created s)
      (loop_suspended s).

Definition set_dependency_graph (g : gmap string (list string)) : DevAgent :=
    mkDevAgent (heap s) (websocket_manager s) (plan_context s)
      (pending_tasks s) (completed_tasks s) (in_progress_tasks s)
      (task_queue s) g (waiting_for_dependencies s) (is_plan_complete s)
      (is_processing_active s) (max_concurrent_tasks s) (loop_created s)
      (loop_suspended s).

Definition set_waiting_for_dependencies (w : list (string * gset string))
    : DevAgent :=
    mkDevAgent (heap s) (websocket_manager s) (plan_context s)
      (pending_tasks s) (completed_tasks s) (in_progress_tasks s)
      (task_queue s) (dependency_graph s) w (is_plan_complete s)
      (is_processing_active s) (max_concurrent_tasks s) (loop_created s)
      (loop_suspended s).

Definition set_is_plan_complete (b : bool) : DevAgent :=
    mkDevAgent (heap s) (websocket_manager s) (plan_context s)
      (pending_tasks s) (completed_tasks s) (in_progress_tasks s)
      (task_queue s) (dependency_graph s) (waiting_for_dependencies s) b
      (is_processing_active s) (max_concurrent_tasks s) (loop_created s)
      (loop_suspended s).

Definition set_is_processing_active (b : bool) : DevAgent :=
    mkDevAgent (heap s) (websocket_manager s) (plan_context s)
      (pending_tasks s) (completed_tasks s) (in_progress_tasks s)
      (task_queue s) (dependency_graph s) (waiting_for_dependencies s)
      (is_plan_complete s) b (max_concurrent_tasks s) (loop_created s)
      (loop_suspended s).

Definition set_max_concurrent_tasks (n : nat) : DevAgent :=
    mkDevAgent (heap s) (websocket_manager s) (plan_context s)
      (pending_tasks s) (completed_tasks s) (in_progress_tasks s)
      (task_queue s) (dependency_graph s) (waiting_for_dependencies s)
      (is_plan_complete s) (is_processing_active s) n (loop_created s)
      (loop_suspended s).

Definition set_loop_created (l : list ref) : DevAgent :=
    mkDevAgent (heap s) (websocket_manager s) (plan_context s)
      (pending_tasks s) (completed_tasks s) (in_progress_tasks s)
      (task_queue s) (dependency_graph s) (waiting_for_dependencies s)
      (is_plan_complete s) (is_processing_active s) (max_concurrent_tasks s)
      l (loop_suspended s).

Definition set_loop_suspended (l : list (ref * ref)) : DevAgent :=
    mkDevAgent (heap s) (websocket_manager s) (plan_context s)
      (pending_tasks s) (completed_tasks s) (in_progress_tasks s)
      (task_queue s) (dependency_graph s) (waiting_for_dependencies s)
      (is_plan_complete s) (is_processing_active s) (max_concurrent_tasks s)
      (loop_created s) l.
End Setters.

(** Dereferencing.  Every reference the agent holds was obtained from
    [alloc]; a reference outside the store reads as the blank task. *)
Definition obj (s : DevAgent) (r : ref) : Task := heap s !!! r.

(** A new [Task] object. *)
Definition alloc (t : Task) (s : DevAgent) : ref * DevAgent :=
  (length (heap s), set_heap s (heap s ++ [t])).

(** Attribute assignment on the object behind [r]. *)
Definition mutate (r : ref) (f : Task -> Task) (s : DevAgent) : DevAgent :=
  set_heap s (<[r := f (obj s r)]> (heap s)).

(** Modelled from the spec: the notification sink
    ([parse.websocket_manager.WebSocketManager] is not among the sources).
    [broadcast] is best-effort delivery to all observers; it is represented
    by the log of the messages handed to it and it does not raise. *)
Definition broadcast_message (m : Message) (s : DevAgent) : DevAgent :=
  set_websocket_manager s (websocket_manager s ++ [m]).

(** The ids of the queued tasks: [[t.id for t in self.task_queue]]. *)
Definition queue_ids (s : DevAgent) : list string :=
  map (fun r => id (obj s r)) (task_queue s).

(** A Python dict keeps the position of a key that is assigned again. *)
Fixpoint dict_set {V} (k : string) (v : V) (d : list (string * V))
  : list (string * V) :=
  match d with
  | [] => [(k, v)]
  | (k', v') :: d' =>
      if decide (k' = k) then (k, v) :: d' else (k', v') :: dict_set k v d'
  end.

Fixpoint dict_get {V} (k : string) (d : list (string * V)) : option V :=
  match d with
  | [] => None
  | (k', v) :: d' => if decide (k' = k) then Some v else dict_get k d'
  end.

(** ** Admission *)

(** [asyncio.create_task(self._execute_task_with_coordination(task))]: the
    coroutine is scheduled; its body starts at a later turn of the loop. *)
Definition create_task (r : ref) (s : DevAgent) : DevAgent :=
  set_loop_created s (loop_created s ++ [r]).

(** The [while] loop of [_process_ready_tasks].  Every iteration pops the
    queue, so the length of the queue bounds the number of iterations. *)
Fixpoint process_loop (fuel : nat) (s : DevAgent) : DevAgent :=
  match fuel with
  | O => s
  | S fuel' =>
      if bool_decide (size (in_progress_tasks s) < max_concurrent_tasks s)
         && is_processing_active s
      then
        match task_queue s with
        | [] => s
        | r :: q =>
            let s1 := set_task_queue s q in
            let s2 :=
              if bool_decide (id (obj s1 r) ∈ in_progress_tasks s1)
              then s1 else create_task r s1 in
            process_loop fuel' s2
        end
      else s
  end.

Definition _process_ready_tasks (s : DevAgent) : DevAgent :=
  if negb (is_processing_active s) then s
  else process_loop (length (task_queue s)) s.

Definition _add_to_execution_queue (r : ref) (s : DevAgent) : DevAgent :=
  let t := obj s r in
  if bool_decide (id t ∈ queue_ids s) then s
  else
    let s1 := set_task_queue s (task_queue s ++ [r]) in
    let s2 := broadcast_message
                (mkMessage "task_queued" (Some (id t)) None
                           [pretty (length (task_queue s1))]) s1 in
    _process_ready_tasks s2.

(** ** Readiness and task arrival *)

Definition _evaluate_task_readiness (r : ref) (s : DevAgent) : DevAgent :=
  let t := obj s r in
  match dependencies t with
  | [] => _add_to_execution_queue r s
  | _ =>
      let unmet_dependencies :=
        filter (fun dep_id => dep_id ∉ completed_tasks s) (dependencies t) in
      match unmet_dependencies with
      | [] => _add_to_execution_queue r s
      | _ =>
          let s1 := set_waiting_for_dependencies s
                      (dict_set (id t) (list_to_set unmet_dependencies)
                                (waiting_for_dependencies s)) in
          broadcast_message
            (mkMessage "task_waiting" (Some (id t)) None unmet_dependencies) s1
      end
  end.

Definition handle_plan_start (pid ptitle pdescription : string) (s : DevAgent)
  : DevAgent :=
  let s1 := set_pending_tasks s ∅ in
  let s2 := set_completed_tasks s1 ∅ in
  let s3 := set_in_progress_tasks s2 ∅ in
  let s4 := set_task_queue s3 [] in
  let s5 := set_dependency_graph s4 ∅ in
  let s6 := set_waiting_for_dependencies s5 [] in
  let s7 := set_is_plan_complete s6 false in
  let s8 := set_is_processing_active s7 true in
  let s9 := set_plan_context s8 (Some (mkPlanContext pid ptitle pdescription)) in
  broadcast_message (mkMessage "plan_acknowledgment" None None [pid]) s9.

Definition handle_task_from_pm (r : ref) (s : DevAgent) : DevAgent :=
  let t := obj s r in
  let s1 := set_pending_tasks s (<[id t := r]> (pending_tasks s)) in
  let s2 :=
    match dependencies t with
    | [] => s1
    | _ =>
        let s' := set_dependency_graph s1
                    (<[id t := dependencies t]> (dependency_graph s1)) in
        set_waiting_for_dependencies s'
          (dict_set (id t) (list_to_set (dependencies t))
                    (waiting_for_dependencies s'))
    end in
  let s3 := broadcast_message
              (mkMessage "task_received" (Some (id t)) None (dependencies t))
              s2 in
  _evaluate_task_readiness r s3.

Definition handle_plan_complete (pid : string) (total_tasks : nat)
  (s : DevAgent) : DevAgent :=
  let s1 := set_is_plan_complete s true in
  let s2 := broadcast_message
              (mkMessage "plan_complete_ack" None None
                 [pid; pretty total_tasks; pretty (size (pending_tasks s1));
                  pretty (length (task_queue s1))]) s1 in
  _process_ready_tasks s2.

(** ** The unblock cascade *)

(** The [for] loop of [_check_unblocked_tasks] over
    [self.waiting_for_dependencies.items()]: the waiting sets after the loop
    and, in iteration order, the ids and tasks collected in
    [unblocked_tasks]. *)
Fixpoint unblock_loop (pending : gmap string ref) (completed_task_id : string)
  (w : list (string * gset string))
  : list (string * gset string) * list (string * ref) :=
  match w with
  | [] => ([], [])
  | (task_id, waiting_deps) :: w' =>
      let '(w'', unblocked) := unblock_loop pending completed_task_id w' in
      if bool_decide (completed_task_id ∈ waiting_deps) then
        let waiting_deps' := waiting_deps ∖ {[completed_task_id]} in
        match (if bool_decide (waiting_deps' = ∅)
               then pending !! task_id else None) with
        | Some r => ((task_id, waiting_deps') :: w'', (task_id, r) :: unblocked)
        | None => ((task_id, waiting_deps') :: w'', unblocked)
        end
      else ((task_id, waiting_deps) :: w'', unblocked)
  end.

Definition _check_unblocked_tasks (completed_task_id : string) (s : DevAgent)
  : DevAgent :=
  let '(w, unblocked_tasks) :=
    unblock_loop (pending_tasks s) completed_task_id
                 (waiting_for_dependencies s) in
  let s1 := set_waiting_for_dependencies s w in
  let s2 := foldl (fun acc '(task_id, _) =>
                     broadcast_message
                       (mkMessage "task_unblocked" (Some task_id) None
                                  [completed_task_id]) acc)
                  s1 unblocked_tasks in
  foldl (fun acc '(_, r) => _add_to_execution_queue r acc) s2 unblocked_tasks.

(** Lines 196-201 of [_execute_task_with_coordination], the step the
    specification calls [complete(task_id)]: mark the id completed, release
    it from the in-progress set, run the unblock cascade. *)
Definition complete (task_id : string) (s : DevAgent) : DevAgent :=
  let s1 := set_completed_tasks s ({[task_id]} ∪ completed_tasks s) in
  let s2 := set_in_progress_tasks s1 (in_progress_tasks s1 ∖ {[task_id]}) in
  _check_unblocked_tasks task_id s2.

(** ** Context enrichment *)

Definition nl : string := String (ascii_of_nat 10) EmptyString.

Definition dependency_lines (s : DevAgent) (ids : list string) : string :=
  String.concat ""
    (map (fun i => match pending_tasks s !! i with
                   | Some r => "- " +:+ i +:+ ": " +:+ title (obj s r) +:+ nl
                   | None => ""
                   end) ids).

(** The text appended to the description.  The source slices
    [list(self.completed_tasks)[-3:]]; the order in which Python enumerates a
    set of strings is not fixed, [elements] stands for it. *)
Definition context_info (c : PlanContext) (t : Task) (s : DevAgent) : string :=
  let completed := elements (completed_tasks s) in
  nl +:+ "        " +:+ nl +:+
  "=== PROJECT CONTEXT ===" +:+ nl +:+
  "Project: " +:+ plan_title c +:+ nl +:+
  "Description: " +:+ plan_description c +:+ nl +:+
  "Current Task: " +:+ pretty (size (completed_tasks s) + 1)%nat +:+ " of "
     +:+ pretty (size (pending_tasks s)) +:+ nl +:+ nl +:+
  "=== TASK DEPENDENCIES ===" +:+ nl +:+
  (match dependencies t with
   | [] => "This task has no dependencies." +:+ nl
   | deps => "This task depends on: " +:+ String.concat ", " deps +:+ nl
             +:+ dependency_lines s deps
   end) +:+
  (match completed with
   | [] => ""
   | _ => nl +:+ "=== COMPLETED TASKS ===" +:+ nl +:+
          dependency_lines s (drop (length completed - 3) completed)
   end).

(** Returns the task itself when there is no plan context, and a new
    [Task] object otherwise. *)
Definition _enhance_task_with_context (r : ref) (s : DevAgent)
  : ref * DevAgent :=
  match plan_context s with
  | None => (r, s)
  | Some c =>
      let t := obj s r in
      alloc (mkTask (id t) (title t) (description t +:+ context_info c t s)
                    (priority t) (status t) (dependencies t)
                    (estimated_hours t) (complexity t) (agent_type t)) s
  end.

(** ** The task executor *)

(** The exceptions the executor distinguishes: the classified [LLMError],
    the [ValueError] of the content check, and any other [Exception]. *)
Inductive PyExn :=
| LLMError (msg : string)
| ValueError (msg : string)
| OtherException (msg : string).

Definition exn_str (e : PyExn) : string :=
  match e with
  | LLMError m => m
  | ValueError m => m
  | OtherException m => m
  end.

(** Code that updates the agent and either returns or raises. *)
Definition Exec (A : Type) : Type := DevAgent -> DevAgent * (A + PyExn).

Definition ret {A} (a : A) : Exec A := fun s => (s, inl a).

Definition raise {A} (e : PyExn) : Exec A := fun s => (s, inr e).

Definition bind {A B} (m : Exec A) (k : A -> Exec B) : Exec B :=
  fun s => match m s with
           | (s', inl a) => k a s'
           | (s', inr e) => (s', inr e)
           end.

Definition try_except {A} (body : Exec A) (handler : PyExn -> Exec A)
  : Exec A :=
  fun s => match body s with
           | (s', inl a) => (s', inl a)
           | (s', inr e) => handler e s'
           end.

(** A statement that cannot raise. *)
Definition stmt (f : DevAgent -> DevAgent) : Exec unit :=
  fun s => (f s, inl tt).

(** A file-system call: [None] when it succeeds, the error text when it
    raises. *)
Definition fs_call (outcome : option string) : Exec unit :=
  match outcome with
  | None => ret tt
  | Some m => raise (OtherException m)
  end.

#[global] Instance Exec_ret : MRet Exec := @ret.
#[global] Instance Exec_bind : MBind Exec := fun A B k m => bind m k.

(** How the stream of [ask_llm_streaming] ends. *)
Inductive StreamEnd :=
| StreamDone
| StreamLLMError (msg : string)
| StreamException (msg : string).

(** What the collaborators of one [execute_task] call do: the file system
    ([iterdir] in [clear_task_output], [mkdir], the three [write_text]
    calls) and the text generation service (the chunks it hands to the
    callback and how the stream ends). *)
Record ExecEnv := mkExecEnv {
  iterdir_error : option string;
  mkdir_error : option string;
  llm_chunks : list string;
  llm_end : StreamEnd;
  write_main_error : option string;
  write_fallback_error : option string;
  write_metadata_error : option string
}.

(** [str.isspace] on the code points below 256. *)
Definition py_isspace (c : ascii) : bool :=
  let n := nat_of_ascii c in
  (((9 <=? n) && (n <=? 13)) || ((28 <=? n) && (n <=? 32))
   || (n =? 133) || (n =? 160))%nat.

Fixpoint lstrip (s : string) : string :=
  match s with
  | EmptyString => EmptyString
  | String c s' => if py_isspace c then lstrip s' else s
  end.

Fixpoint rstrip (s : string) : string :=
  match s with
  | EmptyString => EmptyString
  | String c s' =>
      match rstrip s' with
      | EmptyString => if py_isspace c then EmptyString
                       else String c EmptyString
      | r => String c r
      end
  end.

Definition strip (s : string) : string := rstrip (lstrip s).

Fixpoint whitespace_only (s : string) : bool :=
  match s with
  | EmptyString => true
  | String c s' => py_isspace c && whitespace_only s'
  end.

(** Modelled from the spec: the text generation service
    ([utils.llm_setup.ask_llm_streaming] is not among the sources).  It
    drives the callback once per chunk and then completes or fails; the
    callback accumulates the chunk and forwards it to the sink. *)
Fixpoint stream_chunks (task_id : string) (chunks : list string)
  (full_code_content : string) : Exec string :=
  match chunks with
  | [] => ret full_code_content
  | chunk :: rest =>
      stmt (broadcast_message
              (mkMessage "dev_agent_llm_streaming_chunk" (Some task_id) None
                         [chunk])) ;;
      stream_chunks task_id rest (full_code_content +:+ chunk)
  end.

Definition _stream_code_from_llm (env : ExecEnv) (r : ref) : Exec string :=
  fun s0 =>
  let task_id := id (obj s0 r) in
  (stmt (broadcast_message (mkMessage "llm_request" (Some task_id) None [])) ;;
   full_code_content ← stream_chunks task_id (llm_chunks env) "" ;
   match llm_end env with
   | StreamDone =>
       stmt (broadcast_message
               (mkMessage "llm_response_complete" (Some task_id) None [])) ;;
       ret full_code_content
   | StreamLLMError m =>
       stmt (broadcast_message (mkMessage "error" (Some task_id) None [m])) ;;
       raise (LLMError m)
   | StreamException m =>
       stmt (broadcast_message (mkMessage "error" (Some task_id) None [m])) ;;
       raise (OtherException m)
   end) s0.

Definition fail_task (r : ref) (e : PyExn) : Exec ref :=
  stmt (mutate r (with_status FAILED)) ;;
  stmt (fun s => broadcast_message
                   (mkMessage "task_status_update" (Some (id (obj s r)))
                              (Some FAILED) [exn_str e]) s) ;;
  ret r.

Definition execute_task (env : ExecEnv) (r : ref) : Exec ref :=
  stmt (mutate r (with_status IN_PROGRESS)) ;;
  stmt (fun s => broadcast_message
                   (mkMessage "task_status_update" (Some (id (obj s r)))
                              (Some IN_PROGRESS) []) s) ;;
  (* self.clear_task_output(task.id); task_dir.mkdir(...) *)
  fs_call (iterdir_error env) ;;
  fs_call (mkdir_error env) ;;
  try_except
    (code_output ← _stream_code_from_llm env r ;
     try_except
       (fs_call (write_main_error env) ;;
        stmt (fun s => broadcast_message
                         (mkMessage "file_generated" (Some (id (obj s r)))
                                    None ["implementation.py"; code_output])
                         s))
       (fun file_error =>
          fs_call (write_fallback_error env) ;;
          stmt (fun s => broadcast_message
                           (mkMessage "error" (Some (id (obj s r))) None
                                      [exn_str file_error]) s)) ;;
     (if decide (strip code_output = "")
      then raise (ValueError "LLM generated empty or very short code output.")
      else ret tt) ;;
     fs_call (write_metadata_error env) ;;
     stmt (fun s => broadcast_message
                      (mkMessage "file_generated" (Some (id (obj s r))) None
                                 ["task_metadata.json"]) s) ;;
     stmt (mutate r (with_status COMPLETED)) ;;
     stmt (fun s => broadcast_message
                      (mkMessage "task_status_update" (Some (id (obj s r)))
                                 (Some COMPLETED) []) s) ;;
     ret r)
    (fun e =>
       match e with
       | LLMError _ | ValueError _ => fail_task r e
       | OtherException _ => fail_task r e
       end).

(** ** The execution wrapper *)

(** [_execute_task_with_coordination] from its first statement to the
    suspension in [await self.execute_task(enhanced_task)]. *)
Definition _execute_task_with_coordination_enter (r : ref) (s : DevAgent)
  : DevAgent :=
  let task_id := id (obj s r) in
  if bool_decide (task_id ∈ in_progress_tasks s) then s
  else
    let s1 := set_in_progress_tasks s ({[task_id]} ∪ in_progress_tasks s) in
    let '(enhanced_task, s2) := _enhance_task_with_context r s1 in
    set_loop_suspended s2 (loop_suspended s2 ++ [(r, enhanced_task)]).

(** [_execute_task_with_coordination] from the executor's call to the end. *)
Definition _execute_task_with_coordination_exit (env : ExecEnv)
  (r enhanced_task : ref) (s : DevAgent) : DevAgent :=
  match execute_task env enhanced_task s with
  | (s1, inl completed_task) => complete (id (obj s1 r)) s1
  | (s1, inr e) =>
      let task_id := id (obj s1 r) in
      let s2 := set_in_progress_tasks s1 (in_progress_tasks s1 ∖ {[task_id]}) in
      broadcast_message
        (mkMessage "task_failed" (Some task_id) None [exn_str e]) s2
  end.

(** ** Operator controls *)

Definition pause_processing (s : DevAgent) : DevAgent :=
  broadcast_message (mkMessage "processing_paused" None None [])
                    (set_is_processing_active s false).

Definition resume_processing (s : DevAgent) : DevAgent :=
  _process_ready_tasks
    (broadcast_message (mkMessage "processing_resumed" None None [])
                       (set_is_processing_active s true)).

(** [[t for t in self.task_queue if t.id != task_id]] *)
Definition queue_without (task_id : string) (s : DevAgent) : list ref :=
  filter (fun r => id (obj s r) ≠ task_id) (task_queue s).

Definition force_complete_task (task_id : string) (s : DevAgent)
  : DevAgent * bool :=
  match pending_tasks s !! task_id with
  | Some _ =>
      let s1 := set_completed_tasks s ({[task_id]} ∪ completed_tasks s) in
      let s2 := set_in_progress_tasks s1 (in_progress_tasks s1 ∖ {[task_id]}) in
      let s3 := set_task_queue s2 (queue_without task_id s2) in
      let s4 := _check_unblocked_tasks task_id s3 in
      (broadcast_message
         (mkMessage "task_force_completed" (Some task_id) None []) s4, true)
  | None => (s, false)
  end.

Definition reset_task_status (task_id : string) (s : DevAgent)
  : DevAgent * bool :=
  let s1 := if bool_decide (task_id ∈ completed_tasks s)
            then set_completed_tasks s (completed_tasks s ∖ {[task_id]})
            else s in
  let s2 := if bool_decide (task_id ∈ in_progress_tasks s1)
            then set_in_progress_tasks s1 (in_progress_tasks s1 ∖ {[task_id]})
            else s1 in
  let s3 := set_task_queue s2 (queue_without task_id s2) in
  match pending_tasks s3 !! task_id with
  | Some r =>
      let s4 := _evaluate_task_readiness r s3 in
      (broadcast_message (mkMessage "task_reset" (Some task_id) None []) s4,
       true)
  | None => (s3, false)
  end.

Definition handle_emergency_stop (s : DevAgent) : DevAgent :=
  let s1 := set_is_processing_active s false in
  let s2 := set_task_queue s1 [] in
  broadcast_message
    (mkMessage "emergency_stop" None None (elements (in_progress_tasks s2))) s2.

(** [shutdown] stops admissions and polls until the in-progress set drains
    or the wait is over; the polling only reads the state. *)
Definition shutdown (s : DevAgent) : DevAgent :=
  broadcast_message (mkMessage "agent_shutdown" None None [])
                    (set_is_processing_active s false).

(** One entry of the [updates] dictionary of [handle_task_update]; a key
    that is no attribute of [Task] fails the [hasattr] test. *)
Inductive FieldUpdate :=
| SetId (v : string)
| SetTitle (v : string)
| SetDescription (v : string)
| SetPriority (v : Z)
| SetStatus (v : TaskStatus)
| SetDependencies (v : list string)
| SetEstimatedHours (v : string)
| SetComplexity (v : string)
| SetAgentType (v : string)
| SetOther (key : string).

Definition setattr (u : FieldUpdate) (t : Task) : Task :=
  match u with
  | SetId v => mkTask v (title t) (description t) (priority t) (status t)
                 (dependencies t) (estimated_hours t) (complexity t)
                 (agent_type t)
  | SetTitle v => mkTask (id t) v (description t) (priority t) (status t)
                 (dependencies t) (estimated_hours t) (complexity t)
                 (agent_type t)
  | SetDescription v => mkTask (id t) (title t) v (priority t) (status t)
                 (dependencies t) (estimated_hours t) (complexity t)
                 (agent_type t)
  | SetPriority v => with_priority v t
  | SetStatus v => with_status v t
  | SetDependencies v => mkTask (id t) (title t) (description t) (priority t)
                 (status t) v (estimated_hours t) (complexity t) (agent_type t)
  | SetEstimatedHours v => mkTask (id t) (title t) (description t)
                 (priority t) (status t) (dependencies t) v (complexity t)
                 (agent_type t)
  | SetComplexity v => mkTask (id t) (title t) (description t) (priority t)
                 (status t) (dependencies t) (estimated_hours t) v
                 (agent_type t)
  | SetAgentType v => mkTask (id t) (title t) (description t) (priority t)
                 (status t) (dependencies t) (estimated_hours t)
                 (complexity t) v
  | SetOther _ => t
  end.

Definition is_dependencies (u : FieldUpdate) : bool :=
  match u with SetDependencies _ => true | _ => false end.

Definition handle_task_update (task_id : string) (updates : list FieldUpdate)
  (s : DevAgent) : DevAgent * bool :=
  match pending_tasks s !! task_id with
  | None => (s, false)
  | Some r =>
      let s1 := foldl (fun acc u => mutate r (setattr u) acc) s updates in
      let s2 :=
        if existsb is_dependencies updates then
          _evaluate_task_readiness r
            (set_dependency_graph s1
               (<[task_id := dependencies (obj s1 r)]> (dependency_graph s1)))
        else s1 in
      (broadcast_message (mkMessage "task_updated" (Some task_id) None []) s2,
       true)
  end.

Section Coordinator.

(** [Task.__eq__]: [models.task] is not among the sources, so the equality
    that [in] and [list.remove] fall back on is a parameter. *)
Variable task_eq : Task -> Task -> bool.

(** The test Python's [in] and [list.remove] apply to an element:
    [x is task or x == task]. *)
Definition py_same (s : DevAgent) (x r : ref) : bool :=
  bool_decide (x = r) || task_eq (obj s x) (obj s r).

Definition py_in (s : DevAgent) (r : ref) (q : list ref) : bool :=
  existsb (fun x => py_same s x r) q.

(** [list.remove]: drops the first matching element.  It raises
    [ValueError] when there is none, which the membership test in front of
    the call excludes. *)
Fixpoint py_remove (s : DevAgent) (r : ref) (q : list ref) : list ref :=
  match q with
  | [] => []
  | x :: q' => if py_same s x r then q' else x :: py_remove s r q'
  end.

(** The [for ... enumerate] loop with its [inserted] flag. *)
Fixpoint insert_by_priority (s : DevAgent) (r : ref) (q : list ref)
  : list ref :=
  match q with
  | [] => [r]
  | queued_task :: q' =>
      if (priority (obj s r) >? priority (obj s queued_task))%Z
      then r :: queued_task :: q'
      else queued_task :: insert_by_priority s r q'
  end.

Definition handle_priority_change (task_id : string) (new_priority : Z)
  (s : DevAgent) : DevAgent * bool :=
  match pending_tasks s !! task_id with
  | None => (s, false)
  | Some r =>
      let old_priority := priority (obj s r) in
      let s1 := mutate r (with_priority new_priority) s in
      let s2 :=
        if py_in s1 r (task_queue s1)
        then set_task_queue s1
               (insert_by_priority s1 r (py_remove s1 r (task_queue s1)))
        else s1 in
      (broadcast_message
         (mkMessage "task_priority_changed" (Some task_id) None
                    [pretty old_priority; pretty new_priority]) s2, true)
  end.

(** ** The coordinator as a transition system *)

(** What can happen to the agent: a call of its public surface, or a turn
    of the event loop (a created coroutine starts, or the executor call of
    a suspended coroutine finishes). *)
Inductive Event :=
| PlanStart (pid ptitle pdescription : string)
| TaskFromPM (t : Task)
| PlanComplete (pid : string) (total_tasks : nat)
| Pause
| Resume
| EmergencyStop
| Shutdown
| ForceComplete (task_id : string)
| Reset (task_id : string)
| PriorityChange (task_id : string) (new_priority : Z)
| TaskUpdate (task_id : string) (updates : list FieldUpdate)
| LoopStart
| LoopFinish (i : nat) (env : ExecEnv).

Definition step (ev : Event) (s : DevAgent) : DevAgent :=
  match ev with
  | PlanStart pid ptitle pdescription =>
      handle_plan_start pid ptitle pdescription s
  | TaskFromPM t => let '(r, s1) := alloc t s in handle_task_from_pm r s1
  | PlanComplete pid total_tasks => handle_plan_complete pid total_tasks s
  | Pause => pause_processing s
  | Resume => resume_processing s
  | EmergencyStop => handle_emergency_stop s
  | Shutdown => shutdown s
  | ForceComplete task_id => fst (force_complete_task task_id s)
  | Reset task_id => fst (reset_task_status task_id s)
  | PriorityChange task_id new_priority =>
      fst (handle_priority_change task_id new_priority s)
  | TaskUpdate task_id updates => fst (handle_task_update task_id updates s)
  | LoopStart =>
      match loop_created s with
      | [] => s
      | r :: rest =>
          _execute_task_with_coordination_enter r (set_loop_created s rest)
      end
  | LoopFinish i env =>
      match loop_suspended s !! i with
      | None => s
      | Some (r, enhanced_task) =>
          _execute_task_with_coordination_exit env r enhanced_task
            (set_loop_suspended s (delete i (loop_suspended s)))
      end
  end.

Definition run (evs : list Event) (s : DevAgent) : DevAgent :=
  foldl (fun acc ev => step ev acc) s evs.

End Coordinator.

(** ** Observations on an execution *)

(** The buffer after the callback has run on every chunk:
    [full_code_content += chunk]. *)
Definition accumulated (chunks : list string) : string :=
  foldl String.append "" chunks.

(** The messages the callback forwards to the sink. *)
Definition chunk_messages (task_id : string) (chunks : list string)
  : list Message :=
  map (fun chunk => mkMessage "dev_agent_llm_streaming_chunk" (Some task_id)
                              None [chunk]) chunks.

(** Several messages broadcast in a row. *)
Definition sent (msgs : list Message) (s : DevAgent) : DevAgent :=
  set_websocket_manager s (websocket_manager s ++ msgs).


(** ** Observations on a state *)

(** A task id counts as waiting when its entry in
    [waiting_for_dependencies] is a non-empty set, as in
    [get_task_statistics]. *)
Definition is_waiting (s : DevAgent) (task_id : string) : bool :=
  match dict_get task_id (waiting_for_dependencies s) with
  | Some waiting_deps => negb (bool_decide (waiting_deps = ∅))
  | None => false
  end.

Definition is_queued (s : DevAgent) (task_id : string) : bool :=
  bool_decide (task_id ∈ queue_ids s).

Definition is_in_flight (s : DevAgent) (task_id : string) : bool :=
  bool_decide (task_id ∈ in_progress_tasks s).

(** The ids of the coroutines that were created and have not started. *)
Definition created_ids (s : DevAgent) : list string :=
  map (fun r => id (obj s r)) (loop_created s).

(** Every reference the agent holds points into the object store. *)
Definition valid_ref (s : DevAgent) (r : ref) : Prop := r < length (heap s).

(** Each pending task is filed under its own id. *)
Definition pending_keys_ok (s : DevAgent) : Prop :=
  forall k r, pending_tasks s !! k = Some r -> id (obj s r) = k.

(** The event loop starts [n] created coroutines, oldest first. *)
Fixpoint start_created (n : nat) (s : DevAgent) : DevAgent :=
  match n with
  | O => s
  | S n' =>
      match loop_created s with
      | [] => s
      | r :: rest =>
          start_created n'
            (_execute_task_with_coordination_enter r (set_loop_created s rest))
      end
  end.

(** [s'] differs from [s] at most in the sink, the ready queue and the
    created coroutines: what enqueueing and admission may touch. *)
Definition same_bookkeeping (s s' : DevAgent) : Prop :=
  heap s' = heap s
  /\ plan_context s' = plan_context s
  /\ pending_tasks s' = pending_tasks s
  /\ completed_tasks s' = completed_tasks s
  /\ in_progress_tasks s' = in_progress_tasks s
  /\ dependency_graph s' = dependency_graph s
  /\ waiting_for_dependencies s' = waiting_for_dependencies s
  /\ is_plan_complete s' = is_plan_complete s
  /\ is_processing_active s' = is_processing_active s
  /\ max_concurrent_tasks s' = max_concurrent_tasks s
  /\ loop_suspended s' = loop_suspended s.

(** No waiting set mentions [task_id]. *)
Definition nobody_waits_for (task_id : string)
  (w : list (string * gset string)) : Prop :=
  Forall (fun entry => task_id ∉ entry.2) w.

(** [s'] is as active as [s], has the same created coroutines, and its
    ready queue extends the ready queue of [s]: nothing was admitted and
    nothing was taken out of the queue. *)
Definition undisturbed (s s' : DevAgent) : Prop :=
  is_processing_active s' = is_processing_active s
  /\ loop_created s' = loop_created s
  /\ task_queue s `prefix_of` task_queue s'.

(** The events that switch processing on. *)
Definition reactivates (ev : Event) : bool :=
  match ev with
  | PlanStart _ _ _ | Resume => true
  | _ => false
  end.

(** The events by which an operator takes tasks out of the ready queue or
    reorders it. *)
Definition edits_queue (ev : Event) : bool :=
  match ev with
  | EmergencyStop | ForceComplete _ | Reset _ | PriorityChange _ _ => true
  | _ => false
  end.

(** A task id is scheduled when it is queued, when a coroutine was created
    for it, or when it is in progress. *)
Definition scheduled (s : DevAgent) (task_id : string) : Prop :=
  task_id ∈ queue_ids s \/ task_id ∈ created_ids s
  \/ task_id ∈ in_progress_tasks s.

(** The messages of the cascade, one per unblocked task. *)
Definition unblocked_messages (completed_task_id : string)
  (u : list (string * ref)) : list Message :=
  map (fun '(task_id, _) =>
         mkMessage "task_unblocked" (Some task_id) None [completed_task_id]) u.

(** ** Sample inputs *)

(** Field-wise equality, as a dataclass or a pydantic model defines it. *)
Definition fieldwise_eq (a b : Task) : bool := bool_decide (a = b).

Definition sample_task (task_id : string) (deps : list string) (p : Z) : Task :=
  mkTask task_id ("Build " +:+ task_id) "Implement it" p PENDING deps
         "2" "medium" "dev_agent".

(** Every collaborator succeeds and the service streams [chunks]. *)
Definition env_streaming (chunks : list string) : ExecEnv :=
  mkExecEnv None None chunks StreamDone None None None.

(** The service answers with blanks only. *)
Definition env_whitespace : ExecEnv := env_streaming ["  "; nl].


Definition plan_started : DevAgent := handle_plan_start "p1" "Shop" "A shop" init.

(** A fails its content check while B waits for it. *)
Definition trace_failed_dependency : list Event :=
  [ PlanStart "p1" "Shop" "A shop";
    TaskFromPM (sample_task "A" [] 0);
    TaskFromPM (sample_task "B" ["A"] 0);
    LoopStart;
    LoopFinish 0 env_whitespace ].

(** Three independent tasks arrive while processing is paused. *)
Definition trace_three_tasks : list Event :=
  [ PlanStart "p1" "Shop" "A shop";
    Pause;
    TaskFromPM (sample_task "A" [] 0);
    TaskFromPM (sample_task "B" [] 0);
    TaskFromPM (sample_task "C" [] 0);
    Resume;
    LoopStart; LoopStart; LoopStart ].

(** B is registered after its only dependency A has completed. *)
Definition trace_late_dependent : list Event :=
  [ PlanStart "p1" "Shop" "A shop";
    TaskFromPM (sample_task "A" [] 0);
    LoopStart;
    LoopFinish 0 (env_streaming ["x = 1"]);
    Pause;
    TaskFromPM (sample_task "B" ["A"] 0) ].

(** A is in flight and processing is paused. *)
Definition state_in_flight_paused : DevAgent :=
  run fieldwise_eq
      [ PlanStart "p1" "Shop" "A shop";
        TaskFromPM (sample_task "A" [] 0);
        LoopStart;
        Pause ] init.


(** A and B were in flight when E arrived, so E stayed queued; A has
    finished since, which freed a slot without admitting E. *)
Definition state_one_slot_free : DevAgent :=
  run fieldwise_eq
      [ PlanStart "p1" "Shop" "A shop";
        TaskFromPM (sample_task "A" [] 0);
        TaskFromPM (sample_task "B" [] 0);
        LoopStart; LoopStart;
        TaskFromPM (sample_task "E" [] 0);
        LoopFinish 0 (env_streaming ["x = 1"]) ] init.

(** A is queued and B waits for A, processing is paused. *)
Definition state_dependent_waiting : DevAgent :=
  run fieldwise_eq
      [ PlanStart "p1" "Shop" "A shop";
        Pause;
        TaskFromPM (sample_task "A" [] 0);
        TaskFromPM (sample_task "B" ["A"] 0) ] init.

(** X (priority 5), Y (priority 3) and T (priority 1) are queued in this
    order, processing is paused. *)
Definition state_three_queued : DevAgent :=
  run fieldwise_eq
      [ PlanStart "p1" "Shop" "A shop";
        Pause;
        TaskFromPM (sample_task "X" [] 5);
        TaskFromPM (sample_task "Y" [] 3);
        TaskFromPM (sample_task "T" [] 1) ] init.

(** A and B are in flight, which is the limit, and E is queued. *)
Definition state_full_with_queued : DevAgent :=
  run fieldwise_eq
      [ PlanStart "p1" "Shop" "A shop";
        TaskFromPM (sample_task "A" [] 0);
        TaskFromPM (sample_task "B" [] 0);
        LoopStart; LoopStart;
        TaskFromPM (sample_task "E" [] 0) ] init.

(** A is known and queued, processing is paused. *)
Definition state_queued_paused : DevAgent :=
  run fieldwise_eq
      [ PlanStart "p1" "Shop" "A shop";
        Pause;
        TaskFromPM (sample_task "A" [] 0) ] init.

(** ** Read-only queries and the sequential path *)

(** [get_dependency_status]: the empty dictionary for an unknown task or a
    task without dependencies, and otherwise one entry per dependency id
    telling whether it is completed. *)
Definition get_dependency_status (task_id : string) (s : DevAgent)
  : list (string * bool) :=
  match pending_tasks s !! task_id with
  | None => []
  | Some r =>
      foldl (fun dependency_status dep_id =>
               dict_set dep_id (bool_decide (dep_id ∈ completed_tasks s))
                        dependency_status)
            [] (dependencies (obj s r))
  end.

(** The [for] loop of [process_plan_tasks] over [dev_tasks]; the [k]-th
    call of [execute_task] meets the collaborators [env_of k].
    [_save_updated_plan] only writes the plan file and swallows its own
    errors. *)
Fixpoint process_dev_tasks (env_of : nat -> ExecEnv) (k : nat)
  (dev_tasks : list ref) (all_succeeded : bool) : Exec bool :=
  match dev_tasks with
  | [] => ret all_succeeded
  | r :: rest =>
      bind (execute_task (env_of k) r)
           (fun updated_task s =>
              process_dev_tasks env_of (S k) rest
                (if decide (status (obj s updated_task) = COMPLETED)
                 then all_succeeded else false) s)
  end.

(** [process_plan_tasks], given the tasks of the plan in effect ([None]
    when no plan was passed and none is loaded). *)
Definition process_plan_tasks (env_of : nat -> ExecEnv)
  (current_plan : option (list ref)) : Exec bool :=
  match current_plan with
  | None => ret false
  | Some tasks =>
      fun s =>
        let dev_tasks :=
          filter (fun r => agent_type (obj s r) = "dev_agent"
                           /\ status (obj s r) = PENDING) tasks in
        process_dev_tasks env_of 0 dev_tasks true s
  end.

Section OutputDirectory.

(** [str.isalnum] on one character and [str.lower] on a string: Python
    decides both from the Unicode database, so they are parameters. *)
Variable isalnum : ascii -> bool.
Variable lower : string -> string.

Fixpoint replace_non_alnum (t : string) : string :=
  match t with
  | EmptyString => EmptyString
  | String c t' =>
      String (if isalnum c then c else "_"%char) (replace_non_alnum t')
  end.

(** [s[:n]] *)
Fixpoint str_take (n : nat) (t : string) : string :=
  match n, t with
  | S n', String c t' => String c (str_take n' t')
  | _, _ => EmptyString
  end.

(** [s.lstrip('_')] and [s.rstrip('_')] *)
Fixpoint lstrip_underscore (t : string) : string :=
  match t with
  | String "_" t' => lstrip_underscore t'
  | _ => t
  end.

Fixpoint rstrip_underscore (t : string) : string :=
  match t with
  | EmptyString => EmptyString
  | String c t' =>
      match rstrip_underscore t', c with
      | EmptyString, "_"%char => EmptyString
      | r, _ => String c r
      end
  end.

(** Line 537 of [execute_task]: the slug of the task directory. *)
Definition safe_task_title (task_title : string) : string :=
  rstrip_underscore
    (lstrip_underscore (str_take 50 (lower (replace_non_alnum task_title)))).

End OutputDirectory.

(** ** Further observations *)

(** Every step of the guarded region of [execute_task] passes: the stream
    completes, the buffer has content, the implementation file or its
    fallback is written, and so is the metadata file. *)
Definition generation_succeeds (env : ExecEnv) : bool :=
  match llm_end env with StreamDone => true | _ => false end
  && negb (whitespace_only (accumulated (llm_chunks env)))
  && (bool_decide (write_main_error env = None)
      || bool_decide (write_fallback_error env = None))
  && bool_decide (write_metadata_error env = None).

(** The preparation of the output directory succeeds. *)
Definition setup_succeeds (env : ExecEnv) : Prop :=
  iterdir_error env = None /\ mkdir_error env = None.

(** The ready queue holds valid references with pairwise distinct ids, and
    every pending task is a valid reference. *)
Definition queue_invariant (s : DevAgent) : Prop :=
  NoDup (queue_ids s)
  /\ Forall (valid_ref s) (task_queue s)
  /\ (forall k r, pending_tasks s !! k = Some r -> valid_ref s r).

Definition is_set_id (u : FieldUpdate) : bool :=
  match u with SetId _ => true | _ => false end.

(** The events that can give a task object another id. *)
Definition rewrites_id (ev : Event) : bool :=
  match ev with
  | TaskUpdate _ updates => existsb is_set_id updates
  | _ => false
  end.

(** The first and the last character of a string. *)
Definition str_head (t : string) : option ascii :=
  match t with
  | EmptyString => None
  | String c _ => Some c
  end.

Fixpoint str_last (t : string) : option ascii :=
  match t with
  | EmptyString => None
  | String c EmptyString => Some c
  | String _ t' => str_last t'
  end.

(** The generation works for the first task of a plan and returns blanks
    for the others. *)
Definition env_first_only (k : nat) : ExecEnv :=
  match k with
  | O => env_streaming ["x = 1"]
  | _ => env_whitespace
  end.

(** ASCII letters and digits, and ASCII lower-casing, for the samples. *)
Definition ascii_isalnum (c : ascii) : bool :=
  let n := nat_of_ascii c in
  (((48 <=? n) && (n <=? 57)) || ((65 <=? n) && (n <=? 90))
   || ((97 <=? n) && (n <=? 122)))%nat.

Fixpoint ascii_lower (t : string) : string :=
  match t with
  | EmptyString => EmptyString
  | String c t' =>
      let n := nat_of_ascii c in
      String (if ((65 <=? n) && (n <=? 90))%nat
              then ascii_of_nat (n + 32) else c)
             (ascii_lower t')
  end.

(** * Properties *)

(** Closes a decidable goal on concrete data by evaluating its decision
    procedure. *)
Ltac decide_by_computation :=
  apply (bool_decide_unpack _); vm_compute; exact I.

(** Exposes the record behind the field updates. *)
Ltac unfold_setters :=
  unfold broadcast_message, create_task, mutate, alloc, set_heap,
    set_websocket_manager, set_plan_context, set_pending_tasks,
    set_completed_tasks, set_in_progress_tasks, set_task_queue,
    set_dependency_graph, set_waiting_for_dependencies, set_is_plan_complete,
    set_is_processing_active, set_max_concurrent_tasks, set_loop_created,
    set_loop_suspended in *;
  simpl in *.

(** ** Failed tasks and the completed set *)

(** C1 (the code departs from the specification): task A ends its execution with
    status FAILED (the service streamed blanks only), and the wrapper still
    adds A to the completed set and runs the cascade: B, whose only
    dependency is A, stops waiting, is dispatched and enters the
    in-progress set. *)
Theorem C1_failed_task_unblocks_dependent :
  let s := run fieldwise_eq trace_failed_dependency init in
  status (obj s 2) = FAILED
  /\ "A" ∈ completed_tasks s
  /\ is_waiting s "B" = false
  /\ created_ids s = ["B"]
  /\ is_in_flight (step fieldwise_eq LoopStart s) "B" = true.
Proof.
  cbv zeta. split; [vm_compute; reflexivity|].
  split; [decide_by_computation|].
  repeat (split; [vm_compute; reflexivity|]). vm_compute; reflexivity.
Qed.

(** ** The concurrency limit *)

(** C2 (the code departs from the specification): with the limit at 2, three
    independent tasks queued during a pause are all popped by one run of
    [_process_ready_tasks] after [resume_processing], because the
    in-progress set only grows once the created coroutines start; all three
    are then in flight together. *)
Theorem C2_three_in_flight_with_limit_two :
  let s := run fieldwise_eq trace_three_tasks init in
  max_concurrent_tasks s = 2
  /\ in_progress_tasks s = {["A"; "B"; "C"]}
  /\ size (in_progress_tasks s) = 3
  /\ task_queue s = [].
Proof.
  cbv zeta. repeat (split; [vm_compute; reflexivity|]).
  vm_compute; reflexivity.
Qed.

(** ** Mutual exclusion of the scheduler states *)

(** C3 (the code departs from the specification): B is registered when its only
    dependency A is already completed.  [handle_task_from_pm] files B under
    [waiting_for_dependencies] with the set {A}, the ready branch of
    [_evaluate_task_readiness] queues B without clearing that entry, so B is
    waiting and queued at once, and after admission waiting and in flight at
    once. *)
Theorem C3_registered_task_waiting_and_queued :
  let s := run fieldwise_eq trace_late_dependent init in
  let s' := run fieldwise_eq [Resume; LoopStart] s in
  "A" ∈ completed_tasks s
  /\ is_waiting s "B" = true /\ is_queued s "B" = true
  /\ is_waiting s' "B" = true /\ is_in_flight s' "B" = true.
Proof.
  cbv zeta. split; [decide_by_computation|].
  repeat (split; [vm_compute; reflexivity|]). vm_compute; reflexivity.
Qed.

(** ** Enqueueing and admission leave the bookkeeping alone *)

Lemma same_bookkeeping_refl s : same_bookkeeping s s.
Proof. repeat split. Qed.

Lemma same_bookkeeping_trans s1 s2 s3 :
  same_bookkeeping s1 s2 -> same_bookkeeping s2 s3 -> same_bookkeeping s1 s3.
Proof.
  unfold same_bookkeeping. intros H12 H23.
  destruct_and!. repeat split; congruence.
Qed.

Lemma broadcast_same_bookkeeping m s :
  same_bookkeeping s (broadcast_message m s).
Proof. repeat split. Qed.

Lemma process_loop_same_bookkeeping n s :
  same_bookkeeping s (process_loop n s).
Proof.
  revert s. induction n as [|n IH]; intros s; simpl.
  - apply same_bookkeeping_refl.
  - destruct (_ && _); [|apply same_bookkeeping_refl].
    destruct (task_queue s) as [|r q]; [apply same_bookkeeping_refl|].
    eapply same_bookkeeping_trans; [|apply IH].
    case_bool_decide; repeat split.
Qed.

Lemma process_ready_same_bookkeeping s :
  same_bookkeeping s (_process_ready_tasks s).
Proof.
  unfold _process_ready_tasks.
  destruct (negb _); [apply same_bookkeeping_refl|].
  apply process_loop_same_bookkeeping.
Qed.

Lemma add_to_queue_same_bookkeeping r s :
  same_bookkeeping s (_add_to_execution_queue r s).
Proof.
  unfold _add_to_execution_queue.
  case_bool_decide; [apply same_bookkeeping_refl|].
  eapply same_bookkeeping_trans; [|apply process_ready_same_bookkeeping].
  repeat split.
Qed.

Lemma add_all_same_bookkeeping (u : list (string * ref)) s :
  same_bookkeeping s
    (foldl (fun acc '(_, r) => _add_to_execution_queue r acc) s u).
Proof.
  revert s. induction u as [|[k r] u IH]; intros s; simpl.
  - apply same_bookkeeping_refl.
  - eapply same_bookkeeping_trans; [apply add_to_queue_same_bookkeeping|].
    apply IH.
Qed.

Lemma announce_all_same_bookkeeping (a : string) (u : list (string * ref)) s :
  same_bookkeeping s
    (foldl (fun acc '(task_id, _) =>
              broadcast_message
                (mkMessage "task_unblocked" (Some task_id) None [a]) acc)
           s u).
Proof.
  revert s. induction u as [|[k r] u IH]; intros s; simpl.
  - apply same_bookkeeping_refl.
  - eapply same_bookkeeping_trans; [apply broadcast_same_bookkeeping|].
    apply IH.
Qed.

(** The fuel of [_process_ready_tasks] is enough: more fuel gives the same
    state, so the loop has stopped on its own condition. *)
Lemma process_loop_fuel n s :
  length (task_queue s) <= n ->
  process_loop n s = process_loop (length (task_queue s)) s.
Proof.
  revert s. induction n as [|n IH]; intros s Hlen.
  - by replace (length (task_queue s)) with 0 by lia.
  - simpl. destruct (task_queue s) as [|r q] eqn:Hq; simpl.
    + by destruct (_ && _).
    + rewrite Hq. destruct (_ && _); [|done].
      simpl in Hlen.
      case_bool_decide.
      * rewrite IH by (simpl; lia). done.
      * rewrite IH by (simpl; lia). done.
Qed.

Lemma process_loop_stops s :
  let s' := _process_ready_tasks s in
  is_processing_active s' = false
  \/ max_concurrent_tasks s' <= size (in_progress_tasks s')
  \/ task_queue s' = [].
Proof.
  cbv zeta. unfold _process_ready_tasks.
  destruct (is_processing_active s) eqn:Ha; simpl; [|by left].
  remember (length (task_queue s)) as n eqn:Hn.
  assert (Hlen : length (task_queue s) <= n) by lia. clear Hn.
  revert s Ha Hlen. induction n as [|n IH]; intros s Ha Hlen.
  - right. right. simpl. destruct (task_queue s); [done|simpl in Hlen; lia].
  - simpl. rewrite Ha. case_bool_decide as Hfree; simpl; [|right; left; lia].
    destruct (task_queue s) as [|r q] eqn:Hq; [by right; right|].
    simpl in Hlen. case_bool_decide; apply IH; simpl; (done || lia).
Qed.

(** Admission is switched off while processing is paused. *)
Lemma process_ready_paused s :
  is_processing_active s = false -> _process_ready_tasks s = s.
Proof. intros H. unfold _process_ready_tasks. by rewrite H. Qed.

(** Admission does nothing once the in-progress set has reached the limit. *)
Lemma process_ready_full s :
  max_concurrent_tasks s <= size (in_progress_tasks s) ->
  _process_ready_tasks s = s.
Proof.
  intros H. unfold _process_ready_tasks.
  destruct (negb _); [done|].
  destruct (length (task_queue s)); simpl; [done|].
  rewrite bool_decide_eq_false_2; [done|lia].
Qed.

(** ** The enqueue guard *)

(** C4 (counterexample to the statement of the specification): task A is in flight and
    not queued; enqueueing it again changes the ready queue. *)
Lemma C4_in_flight_task_is_enqueued :
  id (obj state_in_flight_paused 0) ∈ in_progress_tasks state_in_flight_paused
  /\ task_queue (_add_to_execution_queue 0 state_in_flight_paused)
     <> task_queue state_in_flight_paused.
Proof.
  split; [decide_by_computation|]. vm_compute. discriminate.
Qed.

(** C4 (amended): [_add_to_execution_queue] appends a task only if its id
    is not already in the ready queue.  When the id is already queued the
    call leaves the whole state unchanged; when it is not, the task is
    appended whether or not its id is in the in-progress set, and it stays
    at the end of the queue while admission is paused or the in-progress
    set has reached the limit. *)
Theorem C4_enqueue_guards_on_queue_only s r :
  (id (obj s r) ∈ queue_ids s -> _add_to_execution_queue r s = s)
  /\ (id (obj s r) ∉ queue_ids s ->
      is_processing_active s = false
      \/ max_concurrent_tasks s <= size (in_progress_tasks s) ->
      task_queue (_add_to_execution_queue r s) = (task_queue s ++ [r])%list).
Proof.
  split.
  - intros Hin. unfold _add_to_execution_queue.
    by rewrite bool_decide_eq_true_2.
  - intros Hnotin Hblocked. unfold _add_to_execution_queue.
    rewrite bool_decide_eq_false_2 by done.
    destruct Hblocked as [Hpaused|Hfull].
    + by rewrite process_ready_paused.
    + by rewrite process_ready_full.
Qed.

Lemma C4_enqueue_guards_on_queue_only_witness :
  _add_to_execution_queue 0 state_queued_paused = state_queued_paused
  /\ task_queue (_add_to_execution_queue 0 state_in_flight_paused)
     = (task_queue state_in_flight_paused ++ [0])%list.
Proof.
  split.
  - apply (proj1 (C4_enqueue_guards_on_queue_only state_queued_paused 0)).
    decide_by_computation.
  - apply (proj2 (C4_enqueue_guards_on_queue_only state_in_flight_paused 0)).
    + decide_by_computation.
    + left. vm_compute. reflexivity.
Defined.

(** ** Idempotent completion *)

(** After the loop of the cascade no waiting set mentions the id. *)
Lemma unblock_loop_clears pending a w :
  nobody_waits_for a (unblock_loop pending a w).1.
Proof.
  unfold nobody_waits_for.
  induction w as [|[task_id waiting_deps] w IH]; simpl; [constructor|].
  destruct (unblock_loop pending a w) as [w' u]. simpl in IH.
  case_bool_decide as Hin.
  - destruct (if bool_decide _ then pending !! task_id else None);
      simpl; (constructor; [simpl; set_solver|assumption]).
  - simpl. constructor; auto.
Qed.

(** On waiting sets that do not mention the id the loop changes nothing
    and collects nothing. *)
Lemma unblock_loop_idle pending a w :
  nobody_waits_for a w -> unblock_loop pending a w = (w, []).
Proof.
  unfold nobody_waits_for.
  induction 1 as [|[task_id waiting_deps] w Hnotin _ IH]; simpl; [done|].
  rewrite IH. simpl in Hnotin. by rewrite bool_decide_eq_false_2.
Qed.

Lemma check_unblocked_same_bookkeeping a s :
  same_bookkeeping
    (set_waiting_for_dependencies s
       (unblock_loop (pending_tasks s) a (waiting_for_dependencies s)).1)
    (_check_unblocked_tasks a s).
Proof.
  unfold _check_unblocked_tasks.
  destruct (unblock_loop _ _ _) as [w u]. simpl.
  eapply same_bookkeeping_trans; [|apply add_all_same_bookkeeping].
  apply announce_all_same_bookkeeping.
Qed.

Lemma check_unblocked_idle a s :
  nobody_waits_for a (waiting_for_dependencies s) ->
  _check_unblocked_tasks a s = s.
Proof.
  intros H. unfold _check_unblocked_tasks.
  rewrite unblock_loop_idle by done. simpl. by destruct s.
Qed.

(** What [complete] does to the sets it owns. *)
Lemma complete_bookkeeping a s :
  completed_tasks (complete a s) = {[a]} ∪ completed_tasks s
  /\ in_progress_tasks (complete a s) = in_progress_tasks s ∖ {[a]}
  /\ waiting_for_dependencies (complete a s)
     = (unblock_loop (pending_tasks s) a (waiting_for_dependencies s)).1
  /\ pending_tasks (complete a s) = pending_tasks s
  /\ heap (complete a s) = heap s.
Proof.
  unfold complete.
  pose proof (check_unblocked_same_bookkeeping a
    (set_in_progress_tasks
       (set_completed_tasks s ({[a]} ∪ completed_tasks s))
       (in_progress_tasks s ∖ {[a]}))) as H.
  unfold same_bookkeeping in H. simpl in H. destruct_and!.
  simpl. repeat split; assumption.
Qed.

(** A state in which the id is completed, not in progress and awaited by
    nobody is a fixed point of [complete]. *)
Lemma complete_fixed_point a s :
  a ∈ completed_tasks s -> a ∉ in_progress_tasks s ->
  nobody_waits_for a (waiting_for_dependencies s) ->
  complete a s = s.
Proof.
  intros Hc Hp Hw. unfold complete.
  rewrite check_unblocked_idle by done.
  destruct s; unfold_setters. f_equal; set_solver.
Qed.

(** C5: completing the same task id twice is idempotent.  For every
    state, running [complete] a second time returns the state the first run
    produced: the completed set, every waiting set, the ready queue, the
    created coroutines and the sink are all unchanged by the second call. *)
Theorem C5_complete_idempotent a s :
  complete a (complete a s) = complete a s.
Proof.
  destruct (complete_bookkeeping a s) as (Hc & Hp & Hw & _).
  apply complete_fixed_point.
  - rewrite Hc. set_solver.
  - rewrite Hp. set_solver.
  - rewrite Hw. apply unblock_loop_clears.
Qed.

(** ** Resetting an unknown task *)




(** ** The executor *)

Lemma lstrip_empty s : lstrip s = "" <-> whitespace_only s = true.
Proof.
  induction s as [|c s IH]; simpl; [done|].
  destruct (py_isspace c); simpl; [done|]. split; discriminate.
Qed.




Lemma sent_nil s : sent [] s = s.
Proof. destruct s; unfold sent; unfold_setters. by rewrite app_nil_r. Qed.

Lemma sent_sent m1 m2 s : sent m2 (sent m1 s) = sent (m1 ++ m2)%list s.
Proof. destruct s; unfold sent; unfold_setters. by rewrite app_assoc. Qed.

Lemma broadcast_sent m s : broadcast_message m s = sent [m] s.
Proof. done. Qed.



Lemma obj_mutate_same r f s :
  valid_ref s r -> obj (mutate r f s) r = f (obj s r).
Proof.
  intros H. unfold obj, mutate. simpl. by apply list_lookup_total_insert_eq.
Qed.

Lemma obj_mutate_other r r' f s :
  r' <> r -> obj (mutate r f s) r' = obj s r'.
Proof.
  intros H. unfold obj, mutate. simpl. by apply list_lookup_total_insert_ne.
Qed.







(** Unfolds the statements of the executor monad. *)
Ltac run_exec :=
  cbv beta iota zeta
      delta [mbind Exec_bind bind stmt try_except fail_task fs_call ret raise].

Lemma stream_chunks_returns task_id chunks acc s :
  stream_chunks task_id chunks acc s
  = (sent (chunk_messages task_id chunks) s,
     inl (foldl String.append acc chunks)).
Proof.
  revert acc s. induction chunks as [|chunk rest IH]; intros acc s.
  - simpl. unfold ret. by rewrite sent_nil.
  - simpl. unfold mbind, Exec_bind, bind, stmt. rewrite IH.
    by rewrite broadcast_sent, sent_sent.
Qed.

(** The streaming call returns the accumulated buffer when the stream
    completes and raises the service's error otherwise. *)
Lemma stream_code_returns env r s :
  _stream_code_from_llm env r s =
  let task_id := id (obj s r) in
  let s1 := sent (mkMessage "llm_request" (Some task_id) None []
                  :: chunk_messages task_id (llm_chunks env)) s in
  match llm_end env with
  | StreamDone =>
      (sent [mkMessage "llm_response_complete" (Some task_id) None []] s1,
       inl (accumulated (llm_chunks env)))
  | StreamLLMError m =>
      (sent [mkMessage "error" (Some task_id) None [m]] s1, inr (LLMError m))
  | StreamException m =>
      (sent [mkMessage "error" (Some task_id) None [m]] s1,
       inr (OtherException m))
  end.
Proof.
  unfold _stream_code_from_llm, mbind, Exec_bind, bind, stmt.
  rewrite stream_chunks_returns. rewrite broadcast_sent, sent_sent. simpl.
  destruct (llm_end env); reflexivity.
Qed.




(** *** What an execution leaves behind *)

Lemma mutate_sent r f msgs s : mutate r f (sent msgs s) = sent msgs (mutate r f s).
Proof. done. Qed.

Lemma mutate_status_twice r a b s :
  mutate r (with_status b) (mutate r (with_status a) s)
  = mutate r (with_status b) s.
Proof.
  unfold mutate, obj. destruct s as [h ? ? ? ? ? ? ? ? ? ? ? ? ?]. simpl.
  unfold set_heap. simpl. f_equal.
  destruct (decide (r < length h)) as [Hlt|Hge].
  - rewrite list_lookup_total_insert_eq by done.
    by rewrite list_insert_insert_eq.
  - by rewrite !list_insert_ge by (rewrite ?length_insert; lia).
Qed.

Ltac normalise_state :=
  repeat (rewrite broadcast_sent || rewrite mutate_sent || rewrite sent_sent
          || rewrite mutate_status_twice).

(** Whatever happens, [execute_task] only writes the status of its task
    and hands messages to the sink. *)
Lemma execute_task_frame env r s :
  exists st msgs,
    (execute_task env r s).1 = sent msgs (mutate r (with_status st) s).
Proof.
  unfold execute_task.
  destruct env as [ie me chunks lend wm wf wmeta].
  run_exec. simpl iterdir_error. simpl mkdir_error.
  destruct ie, me; run_exec; simpl; normalise_state; eauto.
  rewrite stream_code_returns. cbv zeta. simpl llm_end. simpl llm_chunks.
  destruct (decide (strip (accumulated chunks) = "")) as [Hws|Hws].
  all: destruct lend, wm, wf, wmeta.
  all: run_exec.
  all: try rewrite (decide_True _ _ Hws); try rewrite (decide_False _ _ Hws).
  all: run_exec.
  all: simpl; normalise_state; eauto.
Qed.

(** ** Pause and resume *)

Lemma undisturbed_refl s : undisturbed s s.
Proof. by repeat split. Qed.

Lemma undisturbed_trans s1 s2 s3 :
  undisturbed s1 s2 -> undisturbed s2 s3 -> undisturbed s1 s3.
Proof.
  intros (Ha & Hc & Hq) (Ha' & Hc' & Hq'). repeat split; try congruence.
  by etrans.
Qed.

Lemma undisturbed_paused s s' :
  is_processing_active s = false -> undisturbed s s' ->
  is_processing_active s' = false.
Proof. intros H (Ha & _). congruence. Qed.

Lemma add_to_queue_paused r s :
  is_processing_active s = false ->
  undisturbed s (_add_to_execution_queue r s).
Proof.
  intros Hp. unfold _add_to_execution_queue.
  case_bool_decide; [apply undisturbed_refl|].
  rewrite process_ready_paused by done.
  repeat split. simpl. by apply prefix_app_r.
Qed.

Lemma evaluate_readiness_paused r s :
  is_processing_active s = false ->
  undisturbed s (_evaluate_task_readiness r s).
Proof.
  intros Hp. unfold _evaluate_task_readiness.
  destruct (dependencies (obj s r)); [by apply add_to_queue_paused|].
  destruct (filter _ _); [by apply add_to_queue_paused|].
  by repeat split.
Qed.

Lemma add_all_paused (u : list (string * ref)) s :
  is_processing_active s = false ->
  undisturbed s (foldl (fun acc '(_, r) => _add_to_execution_queue r acc) s u).
Proof.
  revert s. induction u as [|[k r] u IH]; intros s Hp; simpl.
  - apply undisturbed_refl.
  - pose proof (add_to_queue_paused r s Hp) as H1.
    eapply undisturbed_trans; [exact H1|].
    apply IH. by eapply undisturbed_paused.
Qed.

Lemma announce_all_undisturbed (a : string) (u : list (string * ref)) s :
  undisturbed s
    (foldl (fun acc '(task_id, _) =>
              broadcast_message
                (mkMessage "task_unblocked" (Some task_id) None [a]) acc)
           s u).
Proof.
  revert s. induction u as [|[k r] u IH]; intros s; simpl.
  - apply undisturbed_refl.
  - eapply undisturbed_trans; [|apply IH]. by repeat split.
Qed.

Lemma check_unblocked_paused a s :
  is_processing_active s = false ->
  undisturbed s (_check_unblocked_tasks a s).
Proof.
  intros Hp. unfold _check_unblocked_tasks.
  destruct (unblock_loop _ _ _) as [w u].
  eapply undisturbed_trans; [|eapply undisturbed_trans].
  - instantiate (1 := set_waiting_for_dependencies s w). by repeat split.
  - apply announce_all_undisturbed.
  - apply add_all_paused.
    eapply undisturbed_paused; [|apply announce_all_undisturbed]. done.
Qed.

Lemma complete_paused a s :
  is_processing_active s = false -> undisturbed s (complete a s).
Proof.
  intros Hp. unfold complete.
  eapply undisturbed_trans; [|by apply check_unblocked_paused].
  by repeat split.
Qed.

Lemma execute_task_undisturbed env r s :
  undisturbed s (execute_task env r s).1.
Proof.
  destruct (execute_task_frame env r s) as (st & msgs & ->). by repeat split.
Qed.

Lemma coordination_exit_paused env r e s :
  is_processing_active s = false ->
  undisturbed s (_execute_task_with_coordination_exit env r e s).
Proof.
  intros Hp. unfold _execute_task_with_coordination_exit.
  pose proof (execute_task_undisturbed env e s) as H1.
  destruct (execute_task env e s) as [s1 [t|ex]]; simpl in H1.
  - eapply undisturbed_trans; [exact H1|].
    apply complete_paused. by eapply undisturbed_paused.
  - eapply undisturbed_trans; [exact H1|]. by repeat split.
Qed.

Lemma coordination_enter_fields r s :
  let s' := _execute_task_with_coordination_enter r s in
  is_processing_active s' = is_processing_active s
  /\ loop_created s' = loop_created s
  /\ task_queue s' = task_queue s
  /\ in_progress_tasks s ⊆ in_progress_tasks s'
  /\ id (obj s r) ∈ in_progress_tasks s'
  /\ (forall x, valid_ref s x -> valid_ref s' x /\ obj s' x = obj s x).
Proof.
  unfold _execute_task_with_coordination_enter.
  case_bool_decide as Hin; [by repeat split|].
  unfold _enhance_task_with_context. simpl.
  destruct (plan_context s); simpl.
  - repeat split; [set_solver|set_solver| |].
    + unfold valid_ref in *. simpl. rewrite length_app. simpl. lia.
    + unfold obj. simpl. unfold valid_ref in *.
      apply list_lookup_total_correct. rewrite lookup_app_l by done.
      by apply list_lookup_lookup_total_lt.
  - repeat split; [set_solver|set_solver|done].
Qed.

Lemma mutate_all_undisturbed r (updates : list FieldUpdate) s :
  undisturbed s (foldl (fun acc u => mutate r (setattr u) acc) s updates).
Proof.
  revert s. induction updates as [|u us IH]; intros s; simpl.
  - apply undisturbed_refl.
  - eapply undisturbed_trans; [|apply IH]. by repeat split.
Qed.

Lemma paused_event_no_admission task_eq ev s :
  is_processing_active s = false -> reactivates ev = false ->
  let s' := step task_eq ev s in
  is_processing_active s' = false
  /\ (exists started, loop_created s = (started ++ loop_created s')%list)
  /\ (edits_queue ev = false -> task_queue s `prefix_of` task_queue s').
Proof.
  intros Hp Hev. cbv zeta.
  assert (Hgen : forall s', undisturbed s s' ->
            is_processing_active s' = false
            /\ (exists started, loop_created s = (started ++ loop_created s')%list)
            /\ (edits_queue ev = false -> task_queue s `prefix_of` task_queue s')).
  { intros s' (Ha & Hc & Hq). split; [congruence|]. split; [|done].
    exists []. by rewrite Hc. }
  destruct ev; try discriminate; cbn [step fst].
  - (* TaskFromPM *)
    apply Hgen.
    unfold handle_task_from_pm.
    eapply undisturbed_trans; [|apply evaluate_readiness_paused].
    + destruct (dependencies _); by repeat split.
    + by destruct (dependencies _).
  - (* PlanComplete *)
    apply Hgen. unfold handle_plan_complete.
    rewrite process_ready_paused by done. by repeat split.
  - apply Hgen. by repeat split.
  - (* EmergencyStop *)
    split; [done|]. split; [by exists []|]. discriminate.
  - apply Hgen. by repeat split.
  - (* ForceComplete *)
    unfold force_complete_task.
    destruct (pending_tasks s !! task_id); simpl.
    + match goal with
      | |- context [_check_unblocked_tasks ?a ?s0] =>
          pose proof (check_unblocked_paused a s0 Hp) as (Ha & Hc & _)
      end.
      split; [by rewrite Ha|]. split; [|discriminate].
      exists []. by rewrite Hc.
    + split; [done|]. split; [by exists []|]. discriminate.
  - (* Reset *)
    unfold reset_task_status.
    set (s1 := if bool_decide (task_id ∈ completed_tasks s) then _ else s).
    set (s2 := if bool_decide (task_id ∈ in_progress_tasks s1) then _ else s1).
    assert (H1 : is_processing_active s1 = false /\ loop_created s1 = loop_created s)
      by (subst s1; by case_bool_decide).
    assert (H2 : is_processing_active s2 = false /\ loop_created s2 = loop_created s)
      by (subst s2; by case_bool_decide).
    clearbody s1 s2. destruct H2 as [H2a H2c]. simpl.
    destruct (pending_tasks s2 !! task_id) as [r|]; simpl.
    + pose proof (evaluate_readiness_paused r
                    (set_task_queue s2 (queue_without task_id s2)) H2a)
        as (Ha & Hc & _).
      split; [by rewrite Ha|]. split; [|discriminate].
      exists []. rewrite Hc. simpl. by rewrite H2c.
    + split; [done|]. split; [|discriminate]. exists []. by rewrite H2c.
  - (* PriorityChange *)
    unfold handle_priority_change.
    destruct (pending_tasks s !! task_id) as [r|]; simpl.
    + destruct (py_in _ _ _ _); simpl;
        (split; [done|]); (split; [by exists []|discriminate]).
    + split; [done|]. split; [by exists []|discriminate].
  - (* TaskUpdate *)
    apply Hgen. unfold handle_task_update.
    destruct (pending_tasks s !! task_id) as [r|]; simpl;
      [|apply undisturbed_refl].
    pose proof (mutate_all_undisturbed r updates s) as H1.
    destruct (existsb _ _).
    + pose proof (undisturbed_paused _ _ Hp H1) as Hp1.
      match goal with
      | |- context [_evaluate_task_readiness r ?x] =>
          pose proof (evaluate_readiness_paused r x Hp1) as H2
      end.
      eapply undisturbed_trans; [exact H1|].
      eapply undisturbed_trans; [|eapply undisturbed_trans; [exact H2|]];
        by repeat split.
    + eapply undisturbed_trans; [exact H1|]. by repeat split.
  - (* LoopStart *)
    destruct (loop_created s) as [|r rest] eqn:Hcreated.
    + split; [done|]. split; [exists []; by rewrite Hcreated|done].
    + destruct (coordination_enter_fields r (set_loop_created s rest))
        as (Ha & Hc & Hq & _).
      split; [by rewrite Ha|]. split.
      * exists [r]. by rewrite Hc.
      * intros _. by rewrite Hq.
  - (* LoopFinish *)
    apply Hgen.
    destruct (loop_suspended s !! i) as [[r e]|]; [|apply undisturbed_refl].
    eapply undisturbed_trans; [|by apply coordination_exit_paused].
    by repeat split.
Qed.

(** With a free slot and processing on, the loop empties the ready queue
    and creates a coroutine for every popped task whose id is not in
    progress. *)
Lemma process_loop_drains n s :
  is_processing_active s = true ->
  size (in_progress_tasks s) < max_concurrent_tasks s ->
  length (task_queue s) <= n ->
  task_queue (process_loop n s) = []
  /\ loop_created (process_loop n s)
     = (loop_created s
        ++ filter (fun r => id (obj s r) ∉ in_progress_tasks s) (task_queue s))%list
  /\ same_bookkeeping s (process_loop n s).
Proof.
  revert s. induction n as [|n IH]; intros s Ha Hfree Hlen.
  - destruct (task_queue s) eqn:Hq; [|simpl in Hlen; lia].
    simpl. rewrite Hq. rewrite filter_nil, app_nil_r.
    repeat split; done.
  - simpl. rewrite Ha, bool_decide_eq_true_2 by done. simpl.
    destruct (task_queue s) as [|r q] eqn:Hq.
    + rewrite filter_nil, app_nil_r. repeat split; done.
    + rewrite filter_cons. simpl in Hlen.
      change (obj (set_task_queue s q) r) with (obj s r).
      change (in_progress_tasks (set_task_queue s q)) with (in_progress_tasks s).
      case_bool_decide as Hin.
      * destruct (IH (set_task_queue s q)) as (H1 & H2 & H3);
          [done|done|simpl; lia|].
        rewrite decide_False by (intros Hn; by apply Hn).
        split; [exact H1|]. split; [exact H2|].
        eapply same_bookkeeping_trans; [|exact H3]. by repeat split.
      * destruct (IH (create_task r (set_task_queue s q))) as (H1 & H2 & H3);
          [done|done|simpl; lia|].
        rewrite decide_True by done.
        split; [exact H1|]. split.
        -- rewrite H2. simpl. by rewrite <- app_assoc.
        -- eapply same_bookkeeping_trans; [|exact H3]. by repeat split.
Qed.

Lemma start_created_grows n s :
  in_progress_tasks s ⊆ in_progress_tasks (start_created n s).
Proof.
  revert s. induction n as [|n IH]; intros s; simpl; [done|].
  destruct (loop_created s) as [|r rest]; [done|].
  destruct (coordination_enter_fields r (set_loop_created s rest))
    as (_ & _ & _ & Hsub & _).
  etrans; [|apply IH]. exact Hsub.
Qed.

(** Once the loop has started the created coroutines, each of their tasks
    is in the in-progress set. *)
Lemma start_created_registers s r :
  r ∈ loop_created s -> valid_ref s r ->
  id (obj s r) ∈ in_progress_tasks (start_created (length (loop_created s)) s).
Proof.
  remember (loop_created s) as l eqn:Hl.
  revert s Hl. induction l as [|r0 rest IH]; intros s Hl Hin Hvalid.
  - by apply elem_of_nil in Hin.
  - simpl. rewrite <- Hl.
    destruct (coordination_enter_fields r0 (set_loop_created s rest))
      as (_ & Hc & _ & _ & Hreg & Hobj).
    apply elem_of_cons in Hin as [->|Hin].
    + apply (start_created_grows (length rest)). exact Hreg.
    + destruct (Hobj r Hvalid) as [Hvalid' Hsame].
      change (obj (set_loop_created s rest) r) with (obj s r) in Hsame.
      rewrite <- Hsame. apply IH; [by rewrite Hc|done|done].
Qed.

(** C9 (counterexample to the statement of the specification): E is queued while A and B
    are in flight.  After a pause and a resume E is still queued and no
    coroutine has been created for it, because the in-progress set is at
    the limit; E is still queued after A and B have finished. *)
Lemma C9_queued_task_not_admitted_on_resume :
  let s := state_full_with_queued in
  let s1 := resume_processing (pause_processing s) in
  let s2 := run fieldwise_eq
                [ LoopFinish 0 (env_streaming ["x = 1"]);
                  LoopFinish 0 (env_streaming ["y = 2"]) ] s1 in
  queue_ids s = ["E"]
  /\ is_processing_active s1 = true
  /\ queue_ids s1 = ["E"] /\ loop_created s1 = []
  /\ is_in_flight s1 "E" = false
  /\ queue_ids s2 = ["E"] /\ loop_created s2 = []
  /\ is_in_flight s2 "E" = false.
Proof.
  cbv zeta. repeat (split; [vm_compute; reflexivity|]).
  vm_compute. reflexivity.
Qed.

(** C9 (amended): pausing switches admission off and keeps the ready
    queue.  While processing is paused [_process_ready_tasks] is the
    identity, and no event other than a resume or a new plan dispatches
    anything: processing stays paused, no coroutine is created (the ones
    created before the pause can only start), and unless the operator
    edits the queue (emergency stop, force complete, reset, priority
    change) every queued task stays queued in place.  A task that is queued
    and not in progress is admitted when [resume_processing] follows the
    pause, provided the in-progress set is then below the limit: the queue
    is emptied, a coroutine is created for the task, and once the loop has
    started the created coroutines its id is in the in-progress set. *)
Theorem C9_pause_holds_queue_resume_admits task_eq :
  (forall s,
     let s' := pause_processing s in
     is_processing_active s' = false
     /\ task_queue s' = task_queue s
     /\ loop_created s' = loop_created s
     /\ in_progress_tasks s' = in_progress_tasks s)
  /\ (forall s, is_processing_active s = false -> _process_ready_tasks s = s)
  /\ (forall ev s,
        is_processing_active s = false -> reactivates ev = false ->
        let s' := step task_eq ev s in
        is_processing_active s' = false
        /\ (exists started,
              loop_created s = (started ++ loop_created s')%list)
        /\ (edits_queue ev = false ->
            task_queue s `prefix_of` task_queue s'))
  /\ (forall s r,
        r ∈ task_queue s -> valid_ref s r ->
        id (obj s r) ∉ in_progress_tasks s ->
        size (in_progress_tasks s) < max_concurrent_tasks s ->
        let s' := resume_processing (pause_processing s) in
        task_queue s' = []
        /\ r ∈ loop_created s'
        /\ id (obj s r)
             ∈ in_progress_tasks (start_created (length (loop_created s')) s')).
Proof.
  split; [by intros s|].
  split; [exact process_ready_paused|].
  split; [exact (paused_event_no_admission task_eq)|].
  intros s r Hq Hvalid Hnew Hfree. cbv zeta.
  unfold resume_processing, _process_ready_tasks. simpl.
  match goal with
  | |- context [process_loop ?n ?x] =>
      destruct (process_loop_drains n x) as (H1 & H2 & H3);
        [done|done|done|]; set (s' := process_loop n x) in *
  end.
  simpl in H2.
  assert (Hcreated : r ∈ loop_created s').
  { rewrite H2. apply elem_of_app. right. apply list_elem_of_filter.
    split; [exact Hnew|exact Hq]. }
  split; [exact H1|]. split; [exact Hcreated|].
  destruct H3 as (Hheap & _).
  assert (Hobj : obj s' r = obj s r) by (unfold obj; by rewrite Hheap).
  rewrite <- Hobj. apply start_created_registers; [exact Hcreated|].
  unfold valid_ref. by rewrite Hheap.
Qed.

Lemma C9_pause_holds_queue_resume_admits_witness :
  let s := state_one_slot_free in
  let s' := resume_processing (pause_processing s) in
  task_queue s' = []
  /\ 4 ∈ loop_created s'
  /\ id (obj s 4)
       ∈ in_progress_tasks (start_created (length (loop_created s')) s').
Proof.
  apply (proj2 (proj2 (proj2
           (C9_pause_holds_queue_resume_admits fieldwise_eq)))
           state_one_slot_free 4).
  - decide_by_computation.
  - unfold valid_ref. vm_compute. lia.
  - decide_by_computation.
  - vm_compute. lia.
Defined.

(** ** Forced completion *)

(** The loop of the cascade removes the id from every waiting set. *)
Lemma unblock_loop_waiting pending a w :
  (unblock_loop pending a w).1 = map (fun e => (e.1, e.2 ∖ {[a]})) w.
Proof.
  induction w as [|[task_id waiting_deps] w IH]; simpl; [done|].
  destruct (unblock_loop pending a w) as [w' u]. simpl in IH. subst w'.
  case_bool_decide as Hin.
  - by destruct (if bool_decide _ then pending !! task_id else None).
  - simpl. do 2 f_equal. set_solver.
Qed.

(** The loop collects every pending task that waited for the id alone. *)
Lemma unblock_loop_collects pending a w k r :
  (k, {[a]}) ∈ w -> pending !! k = Some r ->
  (k, r) ∈ (unblock_loop pending a w).2.
Proof.
  intros Hin Hp.
  induction w as [|[task_id waiting_deps] w IH]; simpl.
  - by apply elem_of_nil in Hin.
  - destruct (unblock_loop pending a w) as [w' u]. simpl in IH.
    apply elem_of_cons in Hin as [Heq|Hin].
    + injection Heq as <- <-.
      rewrite bool_decide_eq_true_2 by set_solver.
      rewrite bool_decide_eq_true_2 by set_solver.
      rewrite Hp. simpl. apply list_elem_of_here.
    + specialize (IH Hin). case_bool_decide.
      * destruct (if bool_decide _ then pending !! task_id else None);
          simpl; [by apply list_elem_of_further|done].
      * done.
Qed.

(** It collects nothing else. *)
Lemma unblock_loop_sound pending a w k r :
  (k, r) ∈ (unblock_loop pending a w).2 ->
  (k, {[a]}) ∈ w /\ pending !! k = Some r.
Proof.
  induction w as [|[task_id waiting_deps] w IH]; simpl.
  - intros Hin. by apply elem_of_nil in Hin.
  - destruct (unblock_loop pending a w) as [w' u]. simpl in IH.
    case_bool_decide as Hin.
    + case_bool_decide as Hempty.
      * destruct (pending !! task_id) as [r0|] eqn:Hp; simpl.
        -- intros [Heq|Hu]%elem_of_cons.
           ++ injection Heq as -> ->. split; [|done].
              assert (waiting_deps = {[a]}) as ->.
              { clear -Hin Hempty. apply set_eq. intros x.
                destruct (decide (x = a)); set_solver. }
              apply list_elem_of_here.
           ++ destruct (IH Hu). split; [by apply list_elem_of_further|done].
        -- intros Hu. destruct (IH Hu).
           split; [by apply list_elem_of_further|done].
      * simpl. intros Hu. destruct (IH Hu).
        split; [by apply list_elem_of_further|done].
    + simpl. intros Hu. destruct (IH Hu).
      split; [by apply list_elem_of_further|done].
Qed.

Lemma announce_all_sent (a : string) (u : list (string * ref)) s :
  foldl (fun acc '(task_id, _) =>
           broadcast_message
             (mkMessage "task_unblocked" (Some task_id) None [a]) acc) s u
  = sent (unblocked_messages a u) s.
Proof.
  revert s. induction u as [|[k r] u IH]; intros s; simpl.
  - by rewrite sent_nil.
  - rewrite IH. by rewrite broadcast_sent, sent_sent.
Qed.

(** Admission keeps every scheduled id scheduled and queues nothing. *)
Lemma process_loop_scheduled n s :
  (forall i, scheduled s i -> scheduled (process_loop n s) i)
  /\ (forall i, i ∈ queue_ids (process_loop n s) -> i ∈ queue_ids s).
Proof.
  revert s. induction n as [|n IH]; intros s; simpl; [done|].
  destruct (_ && _); [|done].
  destruct (task_queue s) as [|r q] eqn:Hq; [done|].
  change (obj (set_task_queue s q) r) with (obj s r).
  change (in_progress_tasks (set_task_queue s q)) with (in_progress_tasks s).
  match goal with
  | |- context [process_loop n ?x] =>
      destruct (IH x) as [IH1 IH2]; set (s1 := x) in *
  end.
  assert (Hids : queue_ids s = id (obj s r) :: queue_ids s1).
  { unfold queue_ids. rewrite Hq. subst s1. by case_bool_decide. }
  split.
  - intros i Hi. apply IH1. unfold scheduled in *. rewrite Hids in Hi.
    subst s1. case_bool_decide as Hin.
    + destruct Hi as [[->|Hi]%elem_of_cons|[Hi|Hi]]; auto.
    + unfold created_ids in *. simpl. rewrite map_app. simpl.
      destruct Hi as [[->|Hi]%elem_of_cons|[Hi|Hi]]; auto.
      * right. left. apply elem_of_app. right. apply list_elem_of_here.
      * right. left. apply elem_of_app. by left.
  - intros i Hi. rewrite Hids. apply list_elem_of_further. by apply IH2.
Qed.

Lemma process_ready_scheduled s :
  (forall i, scheduled s i -> scheduled (_process_ready_tasks s) i)
  /\ (forall i, i ∈ queue_ids (_process_ready_tasks s) -> i ∈ queue_ids s).
Proof.
  unfold _process_ready_tasks. destruct (negb _); [done|].
  apply process_loop_scheduled.
Qed.

Lemma add_to_queue_scheduled r s :
  (forall i, scheduled s i -> scheduled (_add_to_execution_queue r s) i)
  /\ scheduled (_add_to_execution_queue r s) (id (obj s r))
  /\ (forall i, i ∈ queue_ids (_add_to_execution_queue r s) ->
                i ∈ queue_ids s \/ i = id (obj s r)).
Proof.
  unfold _add_to_execution_queue. case_bool_decide as Hin.
  - split; [done|]. split; [by left|]. intros i Hi. by left.
  - match goal with
    | |- context [_process_ready_tasks ?x] =>
        destruct (process_ready_scheduled x) as [H1 H2]; set (s1 := x) in *
    end.
    assert (Hids : queue_ids s1 = (queue_ids s ++ [id (obj s r)])%list).
    { unfold queue_ids. subst s1. simpl. by rewrite map_app. }
    split; [|split].
    + intros i Hi. apply H1. unfold scheduled in *. rewrite Hids.
      destruct Hi as [Hi|[Hi|Hi]]; auto. left. apply elem_of_app. by left.
    + apply H1. left. rewrite Hids. apply elem_of_app. right.
      apply list_elem_of_here.
    + intros i Hi. apply H2 in Hi. rewrite Hids in Hi.
      apply elem_of_app in Hi as [Hi|Hi]; [by left|].
      right. by apply list_elem_of_singleton in Hi.
Qed.

Lemma obj_same_heap s s' r : heap s' = heap s -> obj s' r = obj s r.
Proof. intros H. unfold obj. by rewrite H. Qed.

Lemma add_all_scheduled (u : list (string * ref)) s :
  let s' := foldl (fun acc '(_, r) => _add_to_execution_queue r acc) s u in
  (forall i, scheduled s i -> scheduled s' i)
  /\ (forall k r, (k, r) ∈ u -> scheduled s' (id (obj s r)))
  /\ (forall i, i ∈ queue_ids s' ->
        i ∈ queue_ids s \/ exists k r, (k, r) ∈ u /\ i = id (obj s r)).
Proof.
  revert s. induction u as [|[k0 r0] u IH]; intros s; simpl.
  - split; [done|]. split; [intros k r H; by apply elem_of_nil in H|].
    intros i Hi. by left.
  - destruct (add_to_queue_scheduled r0 s) as (H1 & H2 & H3).
    destruct (IH (_add_to_execution_queue r0 s)) as (IH1 & IH2 & IH3).
    destruct (add_to_queue_same_bookkeeping r0 s) as (Hheap & _).
    split; [|split].
    + intros i Hi. by apply IH1, H1.
    + intros k r [Heq|Hin]%elem_of_cons.
      * injection Heq as -> ->. by apply IH1.
      * rewrite <- (obj_same_heap s _ r Hheap). by eapply IH2.
    + intros i Hi. apply IH3 in Hi as [Hi|(k & r & Hin & ->)].
      * apply H3 in Hi as [Hi| ->]; [by left|].
        right. exists k0, r0. split; [apply list_elem_of_here|done].
      * right. exists k, r. split; [by apply list_elem_of_further|].
        by rewrite (obj_same_heap s _ r Hheap).
Qed.

Lemma queue_without_ids task_id s :
  task_id ∉ map (fun r => id (obj s r)) (queue_without task_id s).
Proof.
  unfold queue_without. intros Hin.
  apply list_elem_of_fmap in Hin as (r & Heq & Hr).
  apply list_elem_of_filter in Hr as [Hne _]. by apply Hne.
Qed.

(** C8 (counterexample to the statement of the specification): A is a known task with
    status PENDING; after [force_complete_task] its id is in the completed
    set and its status is still PENDING. *)
Lemma C8_force_complete_keeps_status :
  pending_tasks state_queued_paused !! "A" = Some 0
  /\ "A" ∈ completed_tasks (force_complete_task "A" state_queued_paused).1
  /\ status (obj (force_complete_task "A" state_queued_paused).1 0) = PENDING
  /\ status (obj (force_complete_task "A" state_queued_paused).1 0)
     <> COMPLETED.
Proof.
  split; [vm_compute; reflexivity|].
  split; [decide_by_computation|].
  split; [vm_compute; reflexivity|]. vm_compute. discriminate.
Qed.

(** C8 (amended): [force_complete_task] on a known task id returns [True]
    and writes no task object, so the status attribute of the task stays
    what it was.  It adds the id to the completed set, removes it from the
    in-progress set, removes it from every waiting set, and enqueues every
    pending task that was waiting for this id alone: such a task ends up
    queued, with a created coroutine, or is in progress already.  The
    entries with this id are filtered out of the ready queue before the
    cascade runs; when every pending task is filed under its own id and the
    task was not waiting for itself alone, the id is not in the ready queue
    afterwards. *)
Theorem C8_force_complete_known_task task_id r s :
  pending_tasks s !! task_id = Some r ->
  let s' := (force_complete_task task_id s).1 in
  (force_complete_task task_id s).2 = true
  /\ heap s' = heap s
  /\ completed_tasks s' = {[task_id]} ∪ completed_tasks s
  /\ in_progress_tasks s' = in_progress_tasks s ∖ {[task_id]}
  /\ waiting_for_dependencies s'
     = map (fun e => (e.1, e.2 ∖ {[task_id]})) (waiting_for_dependencies s)
  /\ (forall k r',
        (k, {[task_id]}) ∈ waiting_for_dependencies s ->
        pending_tasks s !! k = Some r' ->
        scheduled s' (id (obj s r')))
  /\ (pending_keys_ok s ->
      (task_id, {[task_id]}) ∉ waiting_for_dependencies s ->
      task_id ∉ queue_ids s').
Proof.
  intros Hknown. cbv zeta. unfold force_complete_task. rewrite Hknown.
  cbn [fst snd].
  set (s2 := set_in_progress_tasks
               (set_completed_tasks s ({[task_id]} ∪ completed_tasks s)) _).
  set (s3 := set_task_queue s2 (queue_without task_id s2)).
  pose proof (check_unblocked_same_bookkeeping task_id s3) as Hbook.
  unfold same_bookkeeping in Hbook. simpl in Hbook.
  destruct Hbook as (Hheap & _ & Hpend & Hcomp & Hprog & _ & Hwait & _).
  split; [done|]. split; [exact Hheap|]. split; [exact Hcomp|].
  split; [exact Hprog|].
  split; [etrans; [exact Hwait|apply unblock_loop_waiting]|].
  unfold _check_unblocked_tasks.
  destruct (unblock_loop (pending_tasks s3) task_id
              (waiting_for_dependencies s3)) as [w u] eqn:Hloop.
  rewrite announce_all_sent.
  set (s0 := sent _ (set_waiting_for_dependencies s3 w)).
  destruct (add_all_scheduled u s0) as (_ & Hsched & Hqueue).
  split.
  - intros k r' Hw Hp.
    assert (Hu : (k, r') ∈ u).
    { change u with (w, u).2. rewrite <- Hloop.
      by apply unblock_loop_collects. }
    apply (Hsched k r' Hu).
  - intros Hkeys Hself Hin.
    change (queue_ids (broadcast_message ?m ?x)) with (queue_ids x) in Hin.
    apply Hqueue in Hin as [Hin|(k & r' & Hu & Hid)].
    + by apply (queue_without_ids task_id s2).
    + change u with (w, u).2 in Hu. rewrite <- Hloop in Hu.
      apply unblock_loop_sound in Hu as [Hw Hp].
      change (obj s0 r') with (obj s r') in Hid.
      rewrite (Hkeys k r' Hp) in Hid. subst k. by apply Hself.
Qed.

Lemma C8_force_complete_known_task_witness :
  let s := state_dependent_waiting in
  let s' := (force_complete_task "A" s).1 in
  pending_tasks s !! "A" = Some 0
  /\ heap s' = heap s
  /\ completed_tasks s' = {["A"]} ∪ completed_tasks s
  /\ scheduled s' (id (obj s 1))
  /\ "A" ∉ queue_ids s'.
Proof.
  cbv zeta.
  assert (Hknown : pending_tasks state_dependent_waiting !! "A" = Some 0)
    by (vm_compute; reflexivity).
  destruct (C8_force_complete_known_task "A" 0 state_dependent_waiting Hknown)
    as (_ & Hheap & Hcompleted & _ & _ & Hcascade & Hqueue).
  split; [exact Hknown|]. split; [exact Hheap|]. split; [exact Hcompleted|].
  split.
  - apply (Hcascade "B" 1); [decide_by_computation|vm_compute; reflexivity].
  - apply Hqueue; [|decide_by_computation].
    assert (Hpending : pending_tasks state_dependent_waiting
                       = <["A" := 0]> (<["B" := 1]> ∅))
      by (vm_compute; reflexivity).
    intros k r0 Hk. rewrite Hpending in Hk.
    apply lookup_insert_Some in Hk as [[<- <-]|[_ Hk]];
      [vm_compute; reflexivity|].
    apply lookup_insert_Some in Hk as [[<- <-]|[_ Hk]];
      [vm_compute; reflexivity|].
    by rewrite lookup_empty in Hk.
Defined.

(** ** Priority changes *)

Section PriorityLemmas.
Variable task_eq : Task -> Task -> bool.

Lemma py_in_self s r q : r ∈ q -> py_in task_eq s r q = true.
Proof.
  induction q as [|x q IH]; intros Hin; [by apply elem_of_nil in Hin|].
  simpl. apply elem_of_cons in Hin as [->|Hin].
  - unfold py_same. by rewrite bool_decide_eq_true_2.
  - rewrite IH by done. apply orb_true_r.
Qed.

(** When no other queued object compares equal to the task, [list.remove]
    takes out the task itself. *)
Lemma py_remove_self s r q :
  (forall x, x ∈ q -> x <> r -> py_same task_eq s x r = false) ->
  r ∈ q ->
  exists l1 l2, q = (l1 ++ r :: l2)%list
                /\ py_remove task_eq s r q = (l1 ++ l2)%list.
Proof.
  induction q as [|x q IH]; intros Hother Hin;
    [by apply elem_of_nil in Hin|].
  simpl. destruct (decide (x = r)) as [->|Hne].
  - exists [], q. split; [done|].
    unfold py_same. by rewrite bool_decide_eq_true_2.
  - rewrite Hother; [|apply list_elem_of_here|done].
    apply elem_of_cons in Hin as [->|Hin]; [done|].
    destruct IH as (l1 & l2 & -> & Hrem); [|done|].
    + intros y Hy. apply Hother. by apply list_elem_of_further.
    + exists (x :: l1), l2. split; [done|]. simpl. by rewrite Hrem.
Qed.

End PriorityLemmas.

(** The insertion loop puts the task in front of the first queued task of
    strictly lower priority, and at the end when there is none. *)
Lemma insert_by_priority_spec s r q :
  exists before after,
    q = (before ++ after)%list
    /\ insert_by_priority s r q = (before ++ r :: after)%list
    /\ Forall (fun x => (priority (obj s r) <= priority (obj s x))%Z) before
    /\ match after with
       | [] => True
       | y :: _ => (priority (obj s y) < priority (obj s r))%Z
       end.
Proof.
  induction q as [|x q IH]; simpl.
  - exists [], []. repeat split. constructor.
  - destruct (priority (obj s r) >? priority (obj s x))%Z eqn:Hcmp.
    + exists [], (x :: q). repeat split; [constructor|]. lia.
    + destruct IH as (before & after & -> & Hins & Hbefore & Hafter).
      exists (x :: before), after. rewrite Hins.
      repeat split; [|done]. constructor; [lia|done].
Qed.

Lemma fmap_NoDup_inj {A B} (f : A -> B) (l : list A) x y :
  NoDup (map f l) -> x ∈ l -> y ∈ l -> f x = f y -> x = y.
Proof.
  induction l as [|a l IH]; intros Hnd Hx Hy Hf;
    [by apply elem_of_nil in Hx|].
  simpl in Hnd. apply NoDup_cons in Hnd as [Ha Hnd].
  apply elem_of_cons in Hx as [->|Hx]; apply elem_of_cons in Hy as [->|Hy].
  - done.
  - exfalso. apply Ha. rewrite Hf. apply list_elem_of_fmap. eauto.
  - exfalso. apply Ha. rewrite <- Hf. apply list_elem_of_fmap. eauto.
  - by apply IH.
Qed.

Lemma id_after_priority r p s x :
  id (obj (mutate r (with_priority p) s) x) = id (obj s x).
Proof.
  destruct (decide (x = r)) as [->|Hne]; [|by rewrite obj_mutate_other].
  destruct (decide (r < length (heap s))) as [Hlt|Hge].
  - by rewrite obj_mutate_same.
  - unfold obj, mutate. simpl. by rewrite list_insert_ge by lia.
Qed.

(** C7 (counterexample to the statement of the specification): X, Y and T are queued in
    this order with priorities 5, 3 and 1.  Lowering X to 3 reinserts it
    behind Y: the two tasks now have equal priority and have swapped their
    original order. *)
Lemma C7_equal_priority_order_swapped :
  let s := state_three_queued in
  let s' := (handle_priority_change fieldwise_eq "X" 3 s).1 in
  task_queue s = [0; 1; 2]
  /\ task_queue s' = [1; 0; 2]
  /\ priority (obj s' 0) = priority (obj s' 1).
Proof.
  cbv zeta. repeat (split; [vm_compute; reflexivity|]).
  vm_compute. reflexivity.
Qed.

(** C7 (amended): when the pending task is in the ready queue (valid
    object, queued ids pairwise distinct, equal tasks having equal ids),
    [handle_priority_change] stores the new priority, takes the task out of
    the queue and puts it back immediately before the first queued task of
    strictly lower priority, or at the end when there is none.  The other
    tasks keep their objects and their relative order; every task in front
    of the reinserted one has a priority at least as high, so the moved
    task goes behind the queued tasks of equal priority up to that point
    instead of keeping its original place among them. *)
Theorem C7_priority_change_reinserts task_eq task_id new_priority r s :
  (forall a b, task_eq a b = true -> id a = id b) ->
  pending_tasks s !! task_id = Some r ->
  valid_ref s r ->
  r ∈ task_queue s ->
  NoDup (queue_ids s) ->
  let s' := (handle_priority_change task_eq task_id new_priority s).1 in
  (handle_priority_change task_eq task_id new_priority s).2 = true
  /\ priority (obj s' r) = new_priority
  /\ (forall x, x <> r -> obj s' x = obj s x)
  /\ exists l1 l2 before after,
       task_queue s = (l1 ++ r :: l2)%list
       /\ (l1 ++ l2 = before ++ after)%list
       /\ task_queue s' = (before ++ r :: after)%list
       /\ Forall (fun x => (new_priority <= priority (obj s' x))%Z) before
       /\ match after with
          | [] => True
          | y :: _ => (priority (obj s' y) < new_priority)%Z
          end.
Proof.
  intros Heq Hknown Hvalid Hqueued Hnodup. cbv zeta.
  unfold handle_priority_change. rewrite Hknown.
  set (s1 := mutate r (with_priority new_priority) s).
  change (task_queue s1) with (task_queue s).
  rewrite py_in_self by done. cbn [fst snd].
  assert (Hprio : priority (obj s1 r) = new_priority)
    by (subst s1; by rewrite obj_mutate_same).
  split; [done|]. split; [exact Hprio|].
  split; [intros x Hne; subst s1; by apply obj_mutate_other|].
  destruct (py_remove_self task_eq s1 r (task_queue s))
    as (l1 & l2 & Hsplit & Hremoved); [|done|].
  { intros x Hx Hne. unfold py_same.
    rewrite bool_decide_eq_false_2 by done. simpl.
    destruct (task_eq (obj s1 x) (obj s1 r)) eqn:Hsame; [|done].
    exfalso. apply Hne. apply Heq in Hsame. subst s1.
    rewrite !id_after_priority in Hsame.
    by apply (fmap_NoDup_inj (fun y => id (obj s y)) (task_queue s)). }
  destruct (insert_by_priority_spec s1 r (l1 ++ l2))
    as (before & after & Hrest & Hinserted & Hbefore & Hafter).
  exists l1, l2, before, after.
  split; [exact Hsplit|]. split; [exact Hrest|].
  split; [simpl; by rewrite Hremoved|].
  rewrite Hprio in Hbefore, Hafter. split; [exact Hbefore|exact Hafter].
Qed.

Lemma C7_priority_change_reinserts_witness :
  let s := state_three_queued in
  let s' := (handle_priority_change fieldwise_eq "T" 5 s).1 in
  task_queue s = [0; 1; 2]
  /\ task_queue s' = [0; 2; 1]
  /\ priority (obj s' 2) = 5%Z
  /\ exists l1 l2 before after,
       task_queue s = (l1 ++ 2 :: l2)%list
       /\ (l1 ++ l2 = before ++ after)%list
       /\ task_queue s' = (before ++ 2 :: after)%list
       /\ Forall (fun x => (5 <= priority (obj s' x))%Z) before
       /\ match after with
          | [] => True
          | y :: _ => (priority (obj s' y) < 5)%Z
          end.
Proof.
  cbv zeta.
  split; [vm_compute; reflexivity|]. split; [vm_compute; reflexivity|].
  destruct (C7_priority_change_reinserts fieldwise_eq "T" 5 2
              state_three_queued) as (_ & Hprio & _ & Hqueue).
  - intros a b Hab. apply bool_decide_eq_true in Hab. by subst.
  - vm_compute. reflexivity.
  - unfold valid_ref. vm_compute. lia.
  - decide_by_computation.
  - decide_by_computation.
  - split; [exact Hprio|exact Hqueue].
Defined.

(** ** The wrapper and the status of the returned task *)

(** Whenever [execute_task] returns, whatever the status of the task it
    returns, the wrapper adds the id to the completed set. *)
Lemma coordination_exit_marks_completed env r e s s1 t :
  execute_task env e s = (s1, inl t) ->
  completed_tasks (_execute_task_with_coordination_exit env r e s)
  = {[id (obj s1 r)]} ∪ completed_tasks s.
Proof.
  intros Hexec. unfold _execute_task_with_coordination_exit. rewrite Hexec.
  destruct (complete_bookkeeping (id (obj s1 r)) s1) as (Hc & _).
  rewrite Hc. f_equal.
  destruct (execute_task_frame env e s) as (st & msgs & Hframe).
  rewrite Hexec in Hframe. simpl in Hframe. by rewrite Hframe.
Qed.
